(** * zk-allowance-soundness: a shallow embedding of [appallowzk.py]

    The tool reads one ERC20 allowance over JSON-RPC, prints a report and
    optionally compares the allowance with an expected amount given in
    human units.  The embedding keeps the program's own shape:

    - [PyStr]: the string helpers of Python the program calls
      ([str.startswith], [str.replace], [str(int)], ...);
    - [PyFloat]: Python's [float] as IEEE 754 binary64 with round to nearest,
      ties to even, carried by the Standard Library's [spec_float];
    - [EthUtils]: address validation and EIP-55 checksumming as [web3]
      delegates them to [eth_utils], over an arbitrary hash;
    - [App]: the functions of [appallowzk.py] themselves; [main] is a program
      over explicit effects (printing, RPC calls, the clock) that is run
      against a world answering them.  It is given the namespace
      [parse_args] returned: a command line that [argparse] turns down (or
      answers with its help text) ends the process inside [parse_args] and is
      no run of the lines embedded here. *)

From Stdlib Require Import ZArith Lia List String Ascii Bool.
From Stdlib Require Import SpecFloat.
Import ListNotations.

Local Open Scope string_scope.
Local Open Scope Z_scope.

(* ================================================================== *)
(** ** Strings

    A text is a Python [str] whose code points are all below 256, one
    [ascii] per code point. *)

Module PyStr.

(** [s.startswith(p)] *)
Fixpoint startswith (p s : string) : bool :=
  match p, s with
  | EmptyString, _ => true
  | String a p', String b s' => Ascii.eqb a b && startswith p' s'
  | String _ _, EmptyString => false
  end.

(** [s.replace(c, "")] for a one-character [c] *)
Fixpoint remove_char (c : ascii) (s : string) : string :=
  match s with
  | EmptyString => EmptyString
  | String a s' =>
      if Ascii.eqb a c then remove_char c s' else String a (remove_char c s')
  end.

Definition is_digit (c : ascii) : bool :=
  let n := Z.of_nat (nat_of_ascii c) in (48 <=? n) && (n <=? 57).

Definition digit_val (c : ascii) : Z := Z.of_nat (nat_of_ascii c) - 48.

Definition digit_char (d : Z) : ascii := ascii_of_nat (Z.to_nat (48 + d)).

(** The decimal digits of a non-negative integer, least significant first;
    the fuel is the number of binary digits, which bounds the decimal ones. *)
Fixpoint digits_rev (fuel : nat) (n : Z) : list Z :=
  match fuel with
  | O => []
  | S fuel' => if n <? 10 then [n] else (n mod 10) :: digits_rev fuel' (n / 10)
  end.

Definition digits_of (n : Z) : list Z :=
  rev (digits_rev (S (Z.to_nat (Z.log2 n))) n).

Definition string_of_digits (ds : list Z) : string :=
  string_of_list_ascii (map digit_char ds).

(** [str(n)] for an [int] *)
Definition str_of_int (n : Z) : string :=
  if n <? 0 then String "-" (string_of_digits (digits_of (- n)))
  else string_of_digits (digits_of n).

(** The value of a list of decimal digits, most significant first. *)
Definition digits_value (ds : list Z) : Z :=
  fold_left (fun acc d => 10 * acc + d) ds 0.

(** The white space [float] drops around a number ([Py_ISSPACE]): tab,
    line feed, vertical tab, form feed, carriage return and the space. *)
Definition is_space (c : ascii) : bool :=
  let n := Z.of_nat (nat_of_ascii c) in
  ((9 <=? n) && (n <=? 13)) || (n =? 32).

Fixpoint lstrip (s : string) : string :=
  match s with
  | String c s' => if is_space c then lstrip s' else s
  | EmptyString => EmptyString
  end.

(** [rstrip] keeps a character when it is not a space or when a kept
    character follows it. *)
Fixpoint rstrip (s : string) : string :=
  match s with
  | EmptyString => EmptyString
  | String c s' =>
      match rstrip s' with
      | EmptyString => if is_space c then EmptyString else String c EmptyString
      | r => String c r
      end
  end.

(** The text without the white space around it. *)
Definition strip (s : string) : string := rstrip (lstrip s).

(** [c.lower()] and [c.upper()] on ASCII *)
Definition lower_char (c : ascii) : ascii :=
  let n := nat_of_ascii c in
  if (65 <=? n)%nat && (n <=? 90)%nat then ascii_of_nat (n + 32) else c.

Definition upper_char (c : ascii) : ascii :=
  let n := nat_of_ascii c in
  if (97 <=? n)%nat && (n <=? 122)%nat then ascii_of_nat (n - 32) else c.

(** [s.lower()] *)
Fixpoint lower (s : string) : string :=
  match s with
  | EmptyString => EmptyString
  | String c r => String (lower_char c) (lower r)
  end.

(** [all(f(c) for c in s)] *)
Fixpoint all_chars (f : ascii -> bool) (s : string) : bool :=
  match s with
  | EmptyString => true
  | String c r => f c && all_chars f r
  end.

End PyStr.

(* ================================================================== *)
(** ** Floating point *)

Module PyFloat.

(** binary64: a 53-bit significand, exponents of finite numbers from
    [emin] to [emax - prec]. *)
Definition prec : Z := 53.
Definition emax : Z := 1024.
Definition emin : Z := -1074.

(** The integer nearest to [a / b], ties to the even one ([0 <= a], [0 < b]). *)
Definition rne_div (a b : Z) : Z :=
  let q := a / b in
  match 2 * (a mod b) ?= b with
  | Lt => q
  | Gt => q + 1
  | Eq => if Z.even q then q else q + 1
  end.

(** [floor (log2 (n / d))] for positive [n] and [d]. *)
Definition ilog2_ratio (n d : Z) : Z :=
  let k := Z.log2 n - Z.log2 d in
  if n * 2 ^ Z.max 0 (- k) <? d * 2 ^ Z.max 0 k then k - 1 else k.

(** The binary64 number nearest to [n / d] (ties to even) with sign [s]:
    the rounding every operation below ends with. *)
Definition fl_round (s : bool) (n d : Z) : spec_float :=
  if n <=? 0 then S754_zero s else
  let e := Z.max (ilog2_ratio n d - (prec - 1)) emin in
  let m := rne_div (n * 2 ^ Z.max 0 (- e)) (d * 2 ^ Z.max 0 e) in
  let '(m, e) := if m =? 2 ^ prec then (2 ^ (prec - 1), e + 1) else (m, e) in
  match m with
  | Zpos p => if e <=? emax - prec then S754_finite s p e else S754_infinity s
  | _ => S754_zero s
  end.

(** A finite float [m * 2^e] as the fraction [num / den]. *)
Definition num_of (m : positive) (e : Z) : Z := Zpos m * 2 ^ Z.max 0 e.
Definition den_of (e : Z) : Z := 2 ^ Z.max 0 (- e).

(** [x * y] on floats: the exact product of two finite numbers, rounded;
    zeros, infinities and NaN as IEEE 754 has them. *)
Definition fmul (x y : spec_float) : spec_float :=
  match x, y with
  | S754_finite sx mx ex, S754_finite sy my ey =>
      fl_round (xorb sx sy)
        (Zpos mx * Zpos my * 2 ^ Z.max 0 (ex + ey)) (2 ^ Z.max 0 (- (ex + ey)))
  | _, _ => SFmul prec emax x y
  end.

(** [x - y] on floats, for the clock. *)
Definition fsub (x y : spec_float) : spec_float := SFsub prec emax x y.

(** Exceptions the numeric built-ins raise. *)
Inductive num_error : Type :=
| ZeroDivision
| OverflowDiv        (* integer division result too large for a float *)
| OverflowIntToFloat (* int too large to convert to float *)
| OverflowInfToInt   (* cannot convert float infinity to integer *)
| ValueNanToInt.     (* cannot convert float NaN to integer *)

(** [a / b] on two [int]s: the correctly rounded quotient. *)
Definition true_div (a b : Z) : num_error + spec_float :=
  if b =? 0 then inl ZeroDivision
  else
    let s := xorb (a <? 0) (b <? 0) in
    match fl_round s (Z.abs a) (Z.abs b) with
    | S754_infinity _ => inl OverflowDiv
    | x => inr x
    end.

(** The conversion of an [int] operand of a float operation. *)
Definition float_of_int (z : Z) : num_error + spec_float :=
  match fl_round (z <? 0) (Z.abs z) 1 with
  | S754_infinity _ => inl OverflowIntToFloat
  | S754_zero _ => inr (S754_zero false)
  | x => inr x
  end.

(** [round(x)] with one argument: the nearest [int], ties to even. *)
Definition round_to_int (x : spec_float) : num_error + Z :=
  match x with
  | S754_nan => inl ValueNanToInt
  | S754_infinity _ => inl OverflowInfToInt
  | S754_zero _ => inr 0
  | S754_finite s m e =>
      let k := rne_div (num_of m e) (den_of e) in
      inr (if s then - k else k)
  end.

(** The digits of [k] with [n] of them after the decimal point. *)
Definition fixed_point (k : Z) (n : nat) : string :=
  let ds := PyStr.digits_of k in
  let ds := (repeat 0 (S n - List.length ds)%nat ++ ds)%list in
  let ip := firstn (List.length ds - n)%nat ds in
  let fp := skipn (List.length ds - n)%nat ds in
  match n with
  | O => PyStr.string_of_digits ip
  | S _ => PyStr.string_of_digits ip ++ "." ++ PyStr.string_of_digits fp
  end.

(** ["{:.nf}".format(x)] *)
Definition format_f (n : nat) (x : spec_float) : string :=
  match x with
  | S754_nan => "nan"
  | S754_infinity s => if s then "-inf" else "inf"
  | S754_zero s => (if s then "-" else "") ++ fixed_point 0 n
  | S754_finite s m e =>
      (if s then "-" else "")
      ++ fixed_point (rne_div (num_of m e * 10 ^ Z.of_nat n) (den_of e)) n
  end.

(** [round(x, n)]: the float nearest to the decimal [format_f n x] shows. *)
Definition round_ndigits (n : nat) (x : spec_float) : spec_float :=
  match x with
  | S754_finite s m e =>
      fl_round s (rne_div (num_of m e * 10 ^ Z.of_nat n) (den_of e)) (10 ^ Z.of_nat n)
  | _ => x
  end.

(** *** [float(s)] on a string

    The text is first brought to ASCII, then read with the grammar of the
    language reference: optional sign, then [inf], [infinity] or [nan] in any
    case, or digits with an optional point and an optional exponent; single
    underscores may separate digits; white space around the whole is
    dropped. *)

(** The white space above ASCII among the code points below 256: the next
    line control and the no-break space. *)
Definition is_wide_space (c : ascii) : bool :=
  let n := nat_of_ascii c in (n =? 133)%nat || (n =? 160)%nat.

(** The first step of [float(s)]: code points below 127 stay, white space
    above becomes a space, a decimal digit above would become its ASCII
    digit (there is none below 256), and at anything else a ["?"] ends the
    text. *)
Fixpoint to_ascii (s : string) : string :=
  match s with
  | EmptyString => EmptyString
  | String c r =>
      if (nat_of_ascii c <? 127)%nat then String c (to_ascii r)
      else if is_wide_space c then String " " (to_ascii r)
      else String "?" EmptyString
  end.

(** What follows the first digit of a digit part: [(["_"] digit)*]. *)
Fixpoint digitpart_rest (s : string) : list Z * string :=
  match s with
  | String c s' =>
      if PyStr.is_digit c then
        let (ds, r) := digitpart_rest s' in (PyStr.digit_val c :: ds, r)
      else if Ascii.eqb c "_" then
        match s' with
        | String c' s'' =>
            if PyStr.is_digit c' then
              let (ds, r) := digitpart_rest s'' in (PyStr.digit_val c' :: ds, r)
            else ([], s)
        | EmptyString => ([], s)
        end
      else ([], s)
  | EmptyString => ([], s)
  end.

Definition digitpart (s : string) : option (list Z * string) :=
  match s with
  | String c s' =>
      if PyStr.is_digit c then
        let (ds, r) := digitpart_rest s' in Some (PyStr.digit_val c :: ds, r)
      else None
  | EmptyString => None
  end.

(** [number]: the digits before the point, those after it, and the rest. *)
Definition number (s : string) : option (list Z * list Z * string) :=
  match digitpart s with
  | Some (ip, r) =>
      match r with
      | String "." r' =>
          match digitpart r' with
          | Some (fp, r'') => Some (ip, fp, r'')
          | None => Some (ip, [], r')
          end
      | _ => Some (ip, [], r)
      end
  | None =>
      match s with
      | String "." r' =>
          match digitpart r' with
          | Some (fp, r'') => Some ([], fp, r'')
          | None => None
          end
      | _ => None
      end
  end.

Definition take_sign (s : string) : bool * string :=
  match s with
  | String "-" r => (true, r)
  | String "+" r => (false, r)
  | _ => (false, s)
  end.

(** [exponent]: ["e"] or ["E"], an optional sign, a digit part. *)
Definition exponent (s : string) : option (Z * string) :=
  match s with
  | String c r =>
      if Ascii.eqb c "e" || Ascii.eqb c "E" then
        let (neg, r1) := take_sign r in
        match digitpart r1 with
        | Some (ds, r2) =>
            let v := PyStr.digits_value ds in Some (if neg then - v else v, r2)
        | None => None
        end
      else None
  | EmptyString => None
  end.

(** The float nearest to [digits * 10^e10]. *)
Definition float_of_decimal (s : bool) (digits e10 : Z) : spec_float :=
  fl_round s (digits * 10 ^ Z.max 0 e10) (10 ^ Z.max 0 (- e10)).

(** [float(s)]; [None] is the [ValueError]. *)
Definition float_of_str (s : string) : option spec_float :=
  let (neg, body) := take_sign (PyStr.strip (to_ascii s)) in
  let low := PyStr.lower body in
  if String.eqb low "inf" || String.eqb low "infinity" then
    Some (S754_infinity neg)
  else if String.eqb low "nan" then Some S754_nan
  else
    match number body with
    | Some (ip, fp, r) =>
        let mant := PyStr.digits_value (ip ++ fp)%list in
        let frac := Z.of_nat (List.length fp) in
        match r with
        | EmptyString => Some (float_of_decimal neg mant (- frac))
        | _ =>
            match exponent r with
            | Some (ex, EmptyString) => Some (float_of_decimal neg mant (ex - frac))
            | _ => None
            end
        end
    | None => None
    end.

End PyFloat.

(* ================================================================== *)
(** ** Addresses

    [Web3.is_address] and [Web3.to_checksum_address] are [eth_utils]'
    functions of the same names, in the releases of [eth_utils] that the
    releases of [web3] with these snake-case names ask for: there
    [is_address] looks at the shape of the text only and does not verify
    the case of its letters.  The hash is a variable of the section:
    [keccak_nibble t i] stands for
    [int(encode_hex(keccak(text=t))[2 + i], 16)], the [i]-th hexadecimal
    digit of the Keccak-256 digest of [t]. *)

Module EthUtils.

Definition is_hex_char (c : ascii) : bool :=
  let n := nat_of_ascii c in
  PyStr.is_digit c
  || ((97 <=? n)%nat && (n <=? 102)%nat)
  || ((65 <=? n)%nat && (n <=? 70)%nat).

Definition is_0x_prefixed (s : string) : bool :=
  PyStr.startswith "0x" s || PyStr.startswith "0X" s.

Definition remove_0x_prefix (s : string) : string :=
  if is_0x_prefixed s then
    match s with
    | String _ (String _ r) => r
    | _ => s
    end
  else s.

Definition add_0x_prefix (s : string) : string :=
  if is_0x_prefixed s then s else "0x" ++ s.

(** [(0[xX])?[0-9a-fA-F]*] on a non-empty text *)
Definition is_hexstr (s : string) : bool :=
  negb (String.eqb s "") && PyStr.all_chars is_hex_char (remove_0x_prefix s).

(** [(0x)?[0-9a-f]{40}], case ignored *)
Definition is_hex_address (s : string) : bool :=
  let u := remove_0x_prefix s in
  Nat.eqb (String.length u) 40 && PyStr.all_chars is_hex_char u.

(** [is_address] on a [str]: [is_hex_address(value) or
    is_binary_address(value)], where the second looks at [bytes] only. *)
Definition is_address (value : string) : bool := is_hex_address value.

(** [to_normalized_address]: ["0x"] and the lower-case digits; [None] is
    its [ValueError]. *)
Definition to_normalized_address (value : string) : option string :=
  if is_hexstr value then
    let hex_address := PyStr.lower (add_0x_prefix (PyStr.lower value)) in
    if is_address hex_address then Some hex_address else None
  else None.

Section Keccak.

Variable keccak_nibble : string -> nat -> Z.

(** The characters of [s], the one at position [j] in upper case when digit
    [i + j] of the hash of [text] is above 7. *)
Fixpoint checksum_chars (text : string) (i : nat) (s : string) : string :=
  match s with
  | EmptyString => EmptyString
  | String c r =>
      String (if 7 <? keccak_nibble text i then PyStr.upper_char c else c)
             (checksum_chars text (S i) r)
  end.

(** [to_checksum_address]; [None] is the [ValueError] of normalization.
    The loop runs over [range(2, 42)]: the 40 characters after ["0x"]. *)
Definition to_checksum_address (value : string) : option string :=
  match to_normalized_address value with
  | None => None
  | Some norm_address =>
      let text := remove_0x_prefix norm_address in
      Some (add_0x_prefix (checksum_chars text 0 (substring 0 40 text)))
  end.

(** [is_checksum_address]: the text is its own checksummed form. *)
Definition is_checksum_address (value : string) : bool :=
  is_hex_address value
  && match to_checksum_address value with
     | Some c => String.eqb value c
     | None => false
     end.

End Keccak.

End EthUtils.

(* ================================================================== *)
(** ** The program *)

Module App.

(** The [argparse] namespace. *)
Record args : Type := {
  rpc : string;
  token : string;
  owner : string;
  spender : string;
  block : string;
  expected : option string;
  timeout : Z;
  json : bool
}.

Inductive address_error : Type :=
| InvalidEthereumAddress (addr : string)  (* raised by [to_checksum_or_die] *)
| NormalizeError (addr : string).         (* raised inside [eth_utils] *)

(** What the [allowance] call comes back with: the [uint256], one of the
    two [web3] exceptions named in [get_allowance], or another exception;
    the text is [str(e)]. *)
Inductive allowance_reply : Type :=
| AllowanceOk (n : N)
| AllowanceBadCall (e : string)
| AllowanceOther (e : string).

(** Why the [--expected] block ends in its [except] branch. *)
Inductive expected_error : Type :=
| NotAFloat (text : string)
| Numeric (e : PyFloat.num_error).

(** [fetch_erc20_meta]'s dictionary. *)
Record meta : Type := {
  name : string;
  symbol : string;
  decimals : Z
}.

(** The dictionary [out] that [json.dumps] prints. *)
Record report : Type := {
  out_rpc : string;
  out_chain_id : option Z;
  out_token : string;
  out_token_name : string;
  out_token_symbol : string;
  out_decimals : Z;
  out_owner : string;
  out_spender : string;
  out_block : string;
  out_allowance_raw : Z;
  out_allowance_human : string;
  out_expected_human : option string;
  out_expected_raw : option Z;
  out_match : option bool;
  out_elapsed_seconds : spec_float
}.

(** One constructor per [print] call of [main]. *)
Inductive line : Type :=
| LInvalidRpc
| LAddressError (e : address_error)
| LConnectionFailed
| LBanner
| LChainId (id : Z)
| LRpc (url : string)
| LBlock (tag : string)
| LToken (name symbol addr : string)
| LOwner (addr : string)
| LSpender (addr : string)
| LAllowanceError (msg : string)
| LAllowanceRaw (raw : Z)
| LAllowanceHuman (symbol human : string)
| LZeroWarning
| LExpected (text symbol : string) (raw : Z)
| LVerdict (matched : bool)
| LCouldNotParse (text : string) (e : expected_error)
| LCompleted (elapsed : spec_float)
| LJson (out : report).

(** What the program does to the outside: printing, reading the clock, and
    the calls that go to the RPC endpoint. *)
Inductive effect : Type :=
| EPrint (l : line)
| EClock
| EIsConnected (rpc : string) (timeout : Z)
| ECallName (token : string)
| ECallSymbol (token : string)
| ECallDecimals (token : string)
| EChainId
| ECallAllowance (token owner spender block : string).

(** The answer to each effect; [None] is an exception of the call. *)
Definition reply (e : effect) : Type :=
  match e with
  | EPrint _ => unit
  | EClock => spec_float
  | EIsConnected _ _ => bool
  | ECallName _ => option string
  | ECallSymbol _ => option string
  | ECallDecimals _ => option N
  | EChainId => option Z
  | ECallAllowance _ _ _ _ => allowance_reply
  end.

Definition is_network (e : effect) : bool :=
  match e with
  | EPrint _ | EClock => false
  | _ => true
  end.

(** Programs: a result, or an effect and what to do with its answer. *)
Inductive prog (A : Type) : Type :=
| Ret (a : A)
| Do (e : effect) (k : reply e -> prog A).

Arguments Ret {A} a.
Arguments Do {A} e k.

Fixpoint bind {A B : Type} (p : prog A) (f : A -> prog B) : prog B :=
  match p with
  | Ret a => f a
  | Do e k => Do e (fun r => bind (k r) f)
  end.

Definition perform (e : effect) : prog (reply e) := Do e (fun r => Ret r).

Definition print (l : line) : prog unit := perform (EPrint l).

Declare Scope prog_scope.
Delimit Scope prog_scope with prog.
Notation "x <- p ;; q" := (bind p (fun x => q))
  (at level 61, p at next level, right associativity) : prog_scope.
Notation "p ;; q" := (bind p (fun _ => q))
  (at level 61, right associativity) : prog_scope.
Local Open Scope prog_scope.

(** The world of one run: what the clock shows at its [n]-th reading, and
    what the endpoint answers to each call ([None]: the call raises).  The
    chain id is asked for twice, so its answer depends on the query's rank. *)
Record world : Type := {
  clock : nat -> spec_float;
  connected : bool;
  name_reply : option string;
  symbol_reply : option string;
  decimals_reply : option N;
  chain_id : nat -> option Z;
  allowance : allowance_reply
}.

Definition is_clock (e : effect) : bool :=
  match e with EClock => true | _ => false end.

Definition is_chain_id (e : effect) : bool :=
  match e with EChainId => true | _ => false end.

(** The answer to [e] after the effects [hist] (latest first). *)
Definition answer (w : world) (hist : list effect) (e : effect) : reply e :=
  match e with
  | EPrint _ => tt
  | EClock => clock w (List.length (filter is_clock hist))
  | EIsConnected _ _ => connected w
  | ECallName _ => name_reply w
  | ECallSymbol _ => symbol_reply w
  | ECallDecimals _ => decimals_reply w
  | EChainId => chain_id w (List.length (filter is_chain_id hist))
  | ECallAllowance _ _ _ _ => allowance w
  end.

(** [run_from w hist p]: the effects [p] performs, in order, and its
    result, in the world [w] after the effects [hist]. *)
Fixpoint run_from {A : Type} (w : world) (hist : list effect) (p : prog A)
  : list effect * A :=
  match p with
  | Ret a => ([], a)
  | Do e k =>
      let (t, a) := run_from w (e :: hist) (k (answer w hist e)) in (e :: t, a)
  end.

Definition run {A : Type} (w : world) (p : prog A) : list effect * A :=
  run_from w [] p.

(** How the process ends: [sys.exit(code)], or an exception nobody catches
    (the interpreter prints a traceback and the status is 1). *)
Inductive outcome : Type :=
| Exit (code : Z)
| Uncaught (e : PyFloat.num_error).

Definition exit_status (o : outcome) : Z :=
  match o with
  | Exit code => code
  | Uncaught _ => 1
  end.

Definition printed (t : list effect) : list line :=
  flat_map (fun e => match e with EPrint l => [l] | _ => [] end) t.

Definition network_calls (t : list effect) : list effect := filter is_network t.

Section Keccak.

Variable keccak_nibble : string -> nat -> Z.

Definition to_checksum_or_die (addr : string) : address_error + string :=
  if negb (EthUtils.is_address addr) then
    inl (InvalidEthereumAddress addr)
  else
    match EthUtils.to_checksum_address keccak_nibble addr with
    | Some a => inr a
    | None => inl (NormalizeError addr)
    end.

Definition fetch_erc20_meta (contract : string) : prog meta :=
  r1 <- perform (ECallName contract) ;;
  let name := match r1 with Some v => v | None => "Unknown" end in
  r2 <- perform (ECallSymbol contract) ;;
  let symbol := match r2 with Some v => v | None => "???" end in
  r3 <- perform (ECallDecimals contract) ;;
  let decimals := match r3 with Some v => Z.of_N v | None => 18 end in
  Ret {| name := name; symbol := symbol; decimals := decimals |}.

(** [get_allowance]: the integer, or the message of the [RuntimeError]. *)
Definition get_allowance (contract owner spender block_identifier : string)
  : prog (string + Z) :=
  r <- perform (ECallAllowance contract owner spender block_identifier) ;;
  Ret match r with
      | AllowanceOk n => inr (Z.of_N n)
      | AllowanceBadCall e =>
          inl ("Allowance call failed (is this a valid ERC20?): " ++ e)%string
      | AllowanceOther e => inl ("Failed to fetch allowance: " ++ e)%string
      end.

Definition human_amount (amount_wei decimals : Z) : PyFloat.num_error + string :=
  if decimals <=? 0 then inr (PyStr.str_of_int amount_wei)
  else
    match PyFloat.true_div amount_wei (10 ^ decimals) with
    | inl e => inl e
    | inr x => inr (PyFloat.format_f (Z.to_nat (Z.min decimals 18)) x)
    end.

(** The body of the [try] under [if args.expected is not None], up to
    [expected_raw]:
    [int(round(float(args.expected.replace(",", "")) * (10 ** decimals)))]. *)
Definition expected_to_raw (text : string) (decimals : Z) : expected_error + Z :=
  let cleaned := PyStr.remove_char "," text in
  match PyFloat.float_of_str cleaned with
  | None => inl (NotAFloat cleaned)
  | Some exp_float =>
      match PyFloat.float_of_int (10 ^ decimals) with
      | inl e => inl (Numeric e)
      | inr scale =>
          match PyFloat.round_to_int (PyFloat.fmul exp_float scale) with
          | inl e => inl (Numeric e)
          | inr k => inr k
          end
      end
  end.

Definition starts_http (url : string) : bool :=
  PyStr.startswith "http://" url || PyStr.startswith "https://" url.

Definition main (a : args) : prog outcome :=
  start <- perform EClock ;;
  if negb (starts_http (rpc a)) then
    print LInvalidRpc ;; Ret (Exit 1)
  else
  match to_checksum_or_die (token a) with
  | inl e => print (LAddressError e) ;; Ret (Exit 1)
  | inr token =>
  match to_checksum_or_die (owner a) with
  | inl e => print (LAddressError e) ;; Ret (Exit 1)
  | inr owner =>
  match to_checksum_or_die (spender a) with
  | inl e => print (LAddressError e) ;; Ret (Exit 1)
  | inr spender =>
  connected <- perform (EIsConnected (rpc a) (timeout a)) ;;
  if negb connected then
    print LConnectionFailed ;; Ret (Exit 1)
  else
  meta <- fetch_erc20_meta token ;;
  print LBanner ;;
  chain <- perform EChainId ;;
  match chain with Some id => print (LChainId id) | None => Ret tt end ;;
  print (LRpc (rpc a)) ;;
  print (LBlock (block a)) ;;
  print (LToken (name meta) (symbol meta) token) ;;
  print (LOwner owner) ;;
  print (LSpender spender) ;;
  fetched <- get_allowance token owner spender (block a) ;;
  match fetched with
  | inl msg => print (LAllowanceError msg) ;; Ret (Exit 2)
  | inr raw_allow =>
  match human_amount raw_allow (decimals meta) with
  | inl e => Ret (Uncaught e)
  | inr human_allow =>
  print (LAllowanceRaw raw_allow) ;;
  print (LAllowanceHuman (symbol meta) human_allow) ;;
  (if raw_allow =? 0 then print LZeroWarning else Ret tt) ;;
  cmp <- match expected a with
         | None => Ret (None, None)
         | Some text =>
             match expected_to_raw text (decimals meta) with
             | inr expected_raw =>
                 let matched := expected_raw =? raw_allow in
                 print (LExpected text (symbol meta) expected_raw) ;;
                 print (LVerdict matched) ;;
                 Ret (Some matched, Some expected_raw)
             | inl e => print (LCouldNotParse text e) ;; Ret (None, None)
             end
         end ;;
  let matched : option bool := fst cmp in
  let expected_raw : option Z := snd cmp in
  now <- perform EClock ;;
  let elapsed := PyFloat.round_ndigits 2 (PyFloat.fsub now start) in
  print (LCompleted elapsed) ;;
  (if json a then
     chain' <- perform EChainId ;;
     print (LJson {| out_rpc := rpc a;
                     out_chain_id := chain';
                     out_token := token;
                     out_token_name := name meta;
                     out_token_symbol := symbol meta;
                     out_decimals := decimals meta;
                     out_owner := owner;
                     out_spender := spender;
                     out_block := block a;
                     out_allowance_raw := raw_allow;
                     out_allowance_human := human_allow;
                     out_expected_human := expected a;
                     out_expected_raw := expected_raw;
                     out_match := matched;
                     out_elapsed_seconds := elapsed |})
   else Ret tt) ;;
  match matched with
  | Some false => Ret (Exit 2)
  | _ => Ret (Exit 0)
  end
  end end end end end.

End Keccak.

End App.

(* ================================================================== *)
(** ** What a run shows

    Names for the parts of a run of [main], used to state its properties. *)

Module Shown.

Import App.

(** The checks [main] makes before it opens the connection. *)
Definition valid_inputs (a : args) : bool :=
  starts_http (rpc a)
  && EthUtils.is_address (token a)
  && EthUtils.is_address (owner a)
  && EthUtils.is_address (spender a).

(** The metadata a world leads to. *)
Definition world_meta (w : world) : meta :=
  {| name := match name_reply w with Some v => v | None => "Unknown" end;
     symbol := match symbol_reply w with Some v => v | None => "???" end;
     decimals := match decimals_reply w with Some v => Z.of_N v | None => 18 end |}.

(** The allowance is a [uint256]. *)
Definition allowance_in_range (w : world) : Prop :=
  match allowance w with
  | AllowanceOk n => Z.of_N n < 2 ^ 256
  | _ => True
  end.

(** The lines from the banner to the spender. *)
Definition header (a : args) (m : meta) (chain : option Z) (tok own spd : string)
  : list line :=
  LBanner
  :: (match chain with Some id => [LChainId id] | None => [] end
      ++ [LRpc (rpc a); LBlock (block a); LToken (name m) (symbol m) tok;
          LOwner own; LSpender spd])%list.

(** [matched] after the [--expected] block. *)
Definition verdict (a : args) (m : meta) (raw : Z) : option bool :=
  match expected a with
  | None => None
  | Some text =>
      match expected_to_raw text (decimals m) with
      | inr er => Some (er =? raw)
      | inl _ => None
      end
  end.

(** [expected_raw] after the [--expected] block. *)
Definition expected_raw_of (a : args) (m : meta) : option Z :=
  match expected a with
  | None => None
  | Some text =>
      match expected_to_raw text (decimals m) with
      | inr er => Some er
      | inl _ => None
      end
  end.

(** The lines of the [--expected] block. *)
Definition comparison_lines (a : args) (m : meta) (raw : Z) : list line :=
  match expected a with
  | None => []
  | Some text =>
      match expected_to_raw text (decimals m) with
      | inr er => [LExpected text (symbol m) er; LVerdict (er =? raw)]
      | inl e => [LCouldNotParse text e]
      end
  end.

(** The lines from the raw allowance to the comparison. *)
Definition allowance_lines (a : args) (m : meta) (raw : Z) (human : string)
  : list line :=
  ([LAllowanceRaw raw; LAllowanceHuman (symbol m) human]
   ++ (if raw =? 0 then [LZeroWarning] else [])
   ++ comparison_lines a m raw)%list.

Definition elapsed_of (w : world) : spec_float :=
  PyFloat.round_ndigits 2 (PyFloat.fsub (clock w 1) (clock w 0)).

(** The dictionary [out] of a run that fetched the allowance [raw]. *)
Definition report_of (w : world) (a : args) (tok own spd : string)
  (raw : Z) (human : string) : report :=
  let m := world_meta w in
  {| out_rpc := rpc a;
     out_chain_id := chain_id w 1;
     out_token := tok;
     out_token_name := name m;
     out_token_symbol := symbol m;
     out_decimals := decimals m;
     out_owner := own;
     out_spender := spd;
     out_block := block a;
     out_allowance_raw := raw;
     out_allowance_human := human;
     out_expected_human := expected a;
     out_expected_raw := expected_raw_of a m;
     out_match := verdict a m raw;
     out_elapsed_seconds := elapsed_of w |}.

(** The effects of a run that fetched the allowance [raw]. *)
Definition fetched_trace (w : world) (a : args) (tok own spd : string)
  (raw : Z) (human : string) : list effect :=
  let m := world_meta w in
  ([EClock; EIsConnected (rpc a) (timeout a);
    ECallName tok; ECallSymbol tok; ECallDecimals tok;
    EPrint LBanner; EChainId]
   ++ map EPrint (tl (header a m (chain_id w 0) tok own spd))
   ++ [ECallAllowance tok own spd (block a)]
   ++ map EPrint (allowance_lines a m raw human)
   ++ [EClock; EPrint (LCompleted (elapsed_of w))]
   ++ (if json a
       then [EChainId; EPrint (LJson (report_of w a tok own spd raw human))]
       else []))%list.

(** The line of a failure before the allowance is asked for. *)
Definition is_config_error (l : line) : bool :=
  match l with
  | LInvalidRpc | LAddressError _ | LConnectionFailed => true
  | _ => false
  end.

Definition is_parse_warning (l : line) : bool :=
  match l with
  | LCouldNotParse _ _ => true
  | _ => false
  end.

(** A line with the echo of [--expected] taken out of the JSON document. *)
Definition without_expected_text (l : line) : line :=
  match l with
  | LJson out =>
      LJson {| out_rpc := out_rpc out;
               out_chain_id := out_chain_id out;
               out_token := out_token out;
               out_token_name := out_token_name out;
               out_token_symbol := out_token_symbol out;
               out_decimals := out_decimals out;
               out_owner := out_owner out;
               out_spender := out_spender out;
               out_block := out_block out;
               out_allowance_raw := out_allowance_raw out;
               out_allowance_human := out_allowance_human out;
               out_expected_human := None;
               out_expected_raw := out_expected_raw out;
               out_match := out_match out;
               out_elapsed_seconds := out_elapsed_seconds out |}
  | _ => l
  end.

Definition without_expected (a : args) : args :=
  {| rpc := rpc a; token := token a; owner := owner a; spender := spender a;
     block := block a; expected := None; timeout := timeout a; json := json a |}.

End Shown.

(* ================================================================== *)
(** ** Sample inputs *)

Module Sample.

Import App.

(** A stand-in for the hash: digit [i] of every digest is [i mod 16]. *)
Definition toy_hash (text : string) (i : nat) : Z := Z.of_nat (i mod 16).

Definition token_addr : string := "0xdac17f958d2ee523a2206206994597c13d831ec7".
Definition owner_addr : string := "0x00000000000000000000000000000000000000a1".
Definition spender_addr : string := "0X00000000000000000000000000000000000000B2".

(** A text in mixed case that is no checksum address under [toy_hash]. *)
Definition mixed_addr : string := "0xdAC17F958D2ee523a2206206994597C13D831ec7".

Definition args_of (url : string) (exp : option string) (js : bool) : args :=
  {| rpc := url; token := token_addr; owner := owner_addr;
     spender := spender_addr; block := "latest"; expected := exp;
     timeout := 30; json := js |}.

(** A world whose clock shows 1.5 at its first two readings, with a token
    of 18 decimals whose [symbol()] raises. *)
Definition world_of (conn : bool) (reply : allowance_reply) : world :=
  {| clock := fun n => S754_finite false (2 ^ 52 + Pos.of_nat n * 2 ^ 51) (-52);
     connected := conn;
     name_reply := Some "Tether USD";
     symbol_reply := None;
     decimals_reply := Some 18%N;
     chain_id := fun _ => Some 1;
     allowance := reply |}.

(** The same with a token of 0 decimals. *)
Definition world_units (reply : allowance_reply) : world :=
  {| clock := fun n => S754_finite false (2 ^ 52 + Pos.of_nat n * 2 ^ 51) (-52);
     connected := true;
     name_reply := Some "Units";
     symbol_reply := Some "U";
     decimals_reply := Some 0%N;
     chain_id := fun _ => Some 1;
     allowance := reply |}.

End Sample.

(* ================================================================== *)
(** ** Further names for what floats and runs show *)

Module FloatSign.

(** The sign bit of a float ([math.copysign(1, x) < 0]); NaN has none here. *)
Definition is_negative (x : spec_float) : bool :=
  match x with
  | S754_zero s | S754_infinity s | S754_finite s _ _ => s
  | S754_nan => false
  end.



(** [n] characters ["0"]. *)
Definition zeros (n : nat) : string := string_of_list_ascii (repeat "0"%char n).

End FloatSign.

(** Decimal numerals as text: what [float] is shown to read below. *)
Module FloatText.














End FloatText.

Module Calls.

Import App.

(** The addresses an effect sends to the endpoint. *)
Definition addresses_of (e : effect) : list string :=
  match e with
  | ECallName t | ECallSymbol t | ECallDecimals t => [t]
  | ECallAllowance t o s _ => [t; o; s]
  | _ => []
  end.

(** The calls that go to the token contract. *)
Definition is_contract_call (e : effect) : bool :=
  match e with
  | ECallName _ | ECallSymbol _ | ECallDecimals _ | ECallAllowance _ _ _ _ => true
  | _ => false
  end.

Definition is_json (l : line) : bool :=
  match l with
  | LJson _ => true
  | _ => false
  end.

Import Shown.

(** The effects up to the allowance call. *)
Definition up_to_allowance (w : world) (a : args) (tok own spd : string)
  : list effect :=
  ([EClock; EIsConnected (rpc a) (timeout a);
    ECallName tok; ECallSymbol tok; ECallDecimals tok;
    EPrint LBanner; EChainId]
   ++ map EPrint (tl (header a (world_meta w) (chain_id w 0) tok own spd))
   ++ [ECallAllowance tok own spd (block a)])%list.

Section Keccak.

Variable keccak_nibble : string -> nat -> Z.

(** The shapes a run can take. *)
Inductive run_shape (w : world) (a : args) : list effect * outcome -> Prop :=
| ShapeInvalidRpc :
    starts_http (rpc a) = false ->
    run_shape w a ([EClock; EPrint LInvalidRpc], Exit 1)
| ShapeInvalidAddress (x : string) :
    starts_http (rpc a) = true ->
    find (fun x => negb (EthUtils.is_address x)) [token a; owner a; spender a] = Some x ->
    run_shape w a
      ([EClock; EPrint (LAddressError (InvalidEthereumAddress x))], Exit 1)
| ShapeNotConnected :
    Shown.valid_inputs a = true ->
    connected w = false ->
    run_shape w a
      ([EClock; EIsConnected (rpc a) (timeout a); EPrint LConnectionFailed], Exit 1)
| ShapeFetchFailed (tok own spd msg : string) :
    Shown.valid_inputs a = true ->
    connected w = true ->
    App.to_checksum_or_die keccak_nibble (token a) = inr tok ->
    App.to_checksum_or_die keccak_nibble (owner a) = inr own ->
    App.to_checksum_or_die keccak_nibble (spender a) = inr spd ->
    (exists e, allowance w = AllowanceBadCall e
               /\ msg = "Allowance call failed (is this a valid ERC20?): " ++ e)
    \/ (exists e, allowance w = AllowanceOther e
                  /\ msg = "Failed to fetch allowance: " ++ e) ->
    run_shape w a
      ((up_to_allowance w a tok own spd ++ [EPrint (LAllowanceError msg)])%list,
       Exit 2)
| ShapeUncaught (tok own spd : string) (raw : N) (err : PyFloat.num_error) :
    Shown.valid_inputs a = true ->
    connected w = true ->
    App.to_checksum_or_die keccak_nibble (token a) = inr tok ->
    App.to_checksum_or_die keccak_nibble (owner a) = inr own ->
    App.to_checksum_or_die keccak_nibble (spender a) = inr spd ->
    allowance w = AllowanceOk raw ->
    human_amount (Z.of_N raw) (decimals (world_meta w)) = inl err ->
    run_shape w a (up_to_allowance w a tok own spd, Uncaught err)
| ShapeFetched (tok own spd : string) (raw : N) (human : string) :
    Shown.valid_inputs a = true ->
    connected w = true ->
    App.to_checksum_or_die keccak_nibble (token a) = inr tok ->
    App.to_checksum_or_die keccak_nibble (owner a) = inr own ->
    App.to_checksum_or_die keccak_nibble (spender a) = inr spd ->
    allowance w = AllowanceOk raw ->
    human_amount (Z.of_N raw) (decimals (world_meta w)) = inr human ->
    run_shape w a
      (fetched_trace w a tok own spd (Z.of_N raw) human,
       Exit (match verdict a (world_meta w) (Z.of_N raw) with
             | Some false => 2
             | _ => 0
             end)).

End Keccak.

End Calls.

(* ================================================================== *)
(** * Properties *)

(** ** Characters and strings *)

Ltac each_char c := destruct c as [[] [] [] [] [] [] [] []].

Lemma lower_char_idem (c : ascii) :
  PyStr.lower_char (PyStr.lower_char c) = PyStr.lower_char c.
Proof. each_char c; reflexivity. Qed.

Lemma lower_upper_char (c : ascii) :
  PyStr.lower_char (PyStr.upper_char c) = PyStr.lower_char c.
Proof. each_char c; reflexivity. Qed.

Lemma hex_lower_char (c : ascii) :
  EthUtils.is_hex_char (PyStr.lower_char c) = EthUtils.is_hex_char c.
Proof. each_char c; reflexivity. Qed.

Lemma hex_upper_char (c : ascii) :
  EthUtils.is_hex_char (PyStr.upper_char c) = EthUtils.is_hex_char c.
Proof. each_char c; reflexivity. Qed.

Lemma hex_not_x (c : ascii) :
  EthUtils.is_hex_char c = true -> Ascii.eqb "x" c = false /\ Ascii.eqb "X" c = false.
Proof. each_char c; cbv; intuition congruence. Qed.

Lemma lower_idem (s : string) : PyStr.lower (PyStr.lower s) = PyStr.lower s.
Proof. induction s; simpl; [ | rewrite lower_char_idem, IHs ]; reflexivity. Qed.

Lemma lower_length (s : string) : String.length (PyStr.lower s) = String.length s.
Proof. induction s; simpl; congruence. Qed.

Lemma lower_hex (s : string) :
  PyStr.all_chars EthUtils.is_hex_char (PyStr.lower s)
  = PyStr.all_chars EthUtils.is_hex_char s.
Proof. induction s; simpl; [ | rewrite hex_lower_char, IHs ]; reflexivity. Qed.

Lemma substring_all (s : string) : substring 0 (String.length s) s = s.
Proof. induction s; simpl; congruence. Qed.

(** ** Addresses *)

Section AddressFacts.

Variable keccak_nibble : string -> nat -> Z.

Abbreviation checksum_chars := (EthUtils.checksum_chars keccak_nibble).
Abbreviation to_checksum_address := (EthUtils.to_checksum_address keccak_nibble).
Abbreviation is_address := EthUtils.is_address.

Lemma hex_not_prefixed (s : string) :
  PyStr.all_chars EthUtils.is_hex_char s = true -> EthUtils.is_0x_prefixed s = false.
Proof.
  unfold EthUtils.is_0x_prefixed.
  destruct s as [ | a [ | b r ] ];
    cbn [PyStr.startswith PyStr.all_chars]; intros H.
  - reflexivity.
  - destruct (Ascii.eqb "0" a); reflexivity.
  - apply andb_prop in H as [_ H]. apply andb_prop in H as [Hb _].
    destruct (hex_not_x b Hb) as [-> ->].
    destruct (Ascii.eqb "0" a); reflexivity.
Qed.

Lemma prefixed_inv (s : string) :
  EthUtils.is_0x_prefixed s = true ->
  exists r, s = "0x" ++ r \/ s = "0X" ++ r.
Proof.
  unfold EthUtils.is_0x_prefixed.
  destruct s as [ | a [ | b r ] ]; cbn [PyStr.startswith]; intros H.
  - discriminate.
  - destruct (Ascii.eqb "0" a); discriminate.
  - exists r.
    destruct (Ascii.eqb_spec "0" a) as [<- | ]; [ | discriminate ].
    destruct (Ascii.eqb_spec "x" b) as [<- | ]; [ left; reflexivity | ].
    destruct (Ascii.eqb_spec "X" b) as [<- | ]; [ right; reflexivity | discriminate ].
Qed.

Lemma lower_char_zero (c : ascii) :
  Ascii.eqb "0" (PyStr.lower_char c) = Ascii.eqb "0" c.
Proof. each_char c; reflexivity. Qed.

Lemma lower_char_x (c : ascii) :
  Ascii.eqb "x" (PyStr.lower_char c) = Ascii.eqb "x" c || Ascii.eqb "X" c.
Proof. each_char c; reflexivity. Qed.

Lemma lower_char_not_X (c : ascii) : Ascii.eqb "X" (PyStr.lower_char c) = false.
Proof. each_char c; reflexivity. Qed.

(** Lowering a text keeps its prefix a prefix. *)
Lemma lower_prefixed (s : string) :
  EthUtils.is_0x_prefixed (PyStr.lower s) = EthUtils.is_0x_prefixed s.
Proof.
  unfold EthUtils.is_0x_prefixed.
  destruct s as [ | a [ | b r ] ]; cbn [PyStr.lower PyStr.startswith].
  - reflexivity.
  - rewrite lower_char_zero. reflexivity.
  - rewrite lower_char_zero, lower_char_x, lower_char_not_X, !andb_true_r.
    destruct (Ascii.eqb "0" a), (Ascii.eqb "x" b), (Ascii.eqb "X" b); reflexivity.
Qed.

Lemma lower_remove_prefix (s : string) :
  EthUtils.remove_0x_prefix (PyStr.lower s) = PyStr.lower (EthUtils.remove_0x_prefix s).
Proof.
  unfold EthUtils.remove_0x_prefix. rewrite lower_prefixed.
  destruct (EthUtils.is_0x_prefixed s); [ | reflexivity ].
  destruct s as [ | a [ | b r ] ]; reflexivity.
Qed.

(** The shape of an address is looked for with the case of letters ignored. *)
Lemma lower_hex_address (s : string) :
  EthUtils.is_hex_address (PyStr.lower s) = EthUtils.is_hex_address s.
Proof.
  unfold EthUtils.is_hex_address.
  rewrite lower_remove_prefix, lower_length, lower_hex. reflexivity.
Qed.

Lemma remove_add_prefix (s : string) : EthUtils.remove_0x_prefix ("0x" ++ s) = s.
Proof. reflexivity. Qed.

Lemma checksum_length (text s : string) (i : nat) :
  String.length (checksum_chars text i s) = String.length s.
Proof. revert i; induction s; simpl; intros; [ | rewrite IHs ]; reflexivity. Qed.

Lemma checksum_hex (text s : string) (i : nat) :
  PyStr.all_chars EthUtils.is_hex_char (checksum_chars text i s)
  = PyStr.all_chars EthUtils.is_hex_char s.
Proof.
  revert i; induction s; simpl; intros; [ reflexivity | ].
  rewrite IHs. destruct (7 <? keccak_nibble text i); [ rewrite hex_upper_char | ]; reflexivity.
Qed.

(** Lowering a checksummed text gives back the lower-case text. *)
Lemma lower_checksum (text s : string) (i : nat) :
  PyStr.lower (checksum_chars text i s) = PyStr.lower s.
Proof.
  revert i; induction s; simpl; intros; [ reflexivity | ].
  rewrite IHs. destruct (7 <? keccak_nibble text i); [ rewrite lower_upper_char | ]; reflexivity.
Qed.

(** The normal form of a text of the shape of an address. *)
Lemma normalized_of_hex_address (a : string) :
  EthUtils.is_hex_address a = true ->
  EthUtils.to_normalized_address a
  = Some ("0x" ++ PyStr.lower (EthUtils.remove_0x_prefix a)).
Proof.
  unfold EthUtils.is_hex_address. intros H.
  apply andb_prop in H as [Hlen Hhex]. apply Nat.eqb_eq in Hlen.
  assert (Hnorm : PyStr.lower (EthUtils.add_0x_prefix (PyStr.lower a))
                  = "0x" ++ PyStr.lower (EthUtils.remove_0x_prefix a)).
  { unfold EthUtils.remove_0x_prefix in *.
    destruct (EthUtils.is_0x_prefixed a) eqn:Hp.
    - destruct (prefixed_inv a Hp) as [r [-> | ->]];
        cbn [append PyStr.lower]; unfold EthUtils.add_0x_prefix;
        change (PyStr.lower_char "0") with "0"%char;
        [ change (PyStr.lower_char "x") with "x"%char
        | change (PyStr.lower_char "X") with "x"%char ];
        change (EthUtils.is_0x_prefixed (String "0" (String "x" (PyStr.lower r))))
          with true;
        cbn [PyStr.lower]; rewrite lower_idem; reflexivity.
    - unfold EthUtils.add_0x_prefix.
      rewrite hex_not_prefixed by (rewrite lower_hex; exact Hhex).
      simpl. rewrite lower_idem. reflexivity. }
  unfold EthUtils.to_normalized_address.
  assert (Hs : EthUtils.is_hexstr a = true).
  { unfold EthUtils.is_hexstr. rewrite Hhex.
    destruct a; [ | reflexivity ].
    unfold EthUtils.remove_0x_prefix in Hlen; simpl in Hlen. discriminate. }
  rewrite Hs, Hnorm.
  unfold EthUtils.is_address, EthUtils.is_hex_address.
  rewrite remove_add_prefix, lower_length, Hlen, lower_hex, Hhex.
  reflexivity.
Qed.

(** The checksummed form of a text of the shape of an address. *)
Lemma checksum_of_hex_address (a : string) :
  EthUtils.is_hex_address a = true ->
  let text := PyStr.lower (EthUtils.remove_0x_prefix a) in
  to_checksum_address a = Some ("0x" ++ checksum_chars text 0 text).
Proof.
  intros H. unfold EthUtils.to_checksum_address.
  rewrite (normalized_of_hex_address a H), remove_add_prefix.
  unfold EthUtils.is_hex_address in H. apply andb_prop in H as [Hlen Hhex].
  apply Nat.eqb_eq in Hlen.
  cbv zeta.
  replace 40%nat with (String.length (PyStr.lower (EthUtils.remove_0x_prefix a)))
    by (rewrite lower_length; exact Hlen).
  rewrite substring_all.
  unfold EthUtils.add_0x_prefix. rewrite hex_not_prefixed; [ reflexivity | ].
  rewrite checksum_hex, lower_hex. exact Hhex.
Qed.

(** A checksummed address is a valid address, and its own checksummed form. *)
Lemma checksummed_fixed (a c : string) :
  EthUtils.is_hex_address a = true ->
  to_checksum_address a = Some c ->
  is_address c = true /\ to_checksum_address c = Some c.
Proof.
  intros H Hc.
  rewrite (checksum_of_hex_address a H) in Hc. cbv zeta in Hc.
  set (text := PyStr.lower (EthUtils.remove_0x_prefix a)) in Hc.
  assert (Ec : c = "0x" ++ checksum_chars text 0 text) by congruence.
  clear Hc.
  assert (Hhex : EthUtils.is_hex_address c = true).
  { rewrite Ec. unfold EthUtils.is_hex_address. rewrite remove_add_prefix.
    rewrite checksum_length, checksum_hex. subst text. rewrite lower_length, lower_hex.
    exact H. }
  assert (Hfix : to_checksum_address c = Some c).
  { rewrite (checksum_of_hex_address c Hhex). cbv zeta.
    rewrite Ec, remove_add_prefix, lower_checksum.
    subst text. rewrite lower_idem. reflexivity. }
  split; [ exact Hhex | exact Hfix ].
Qed.

Lemma to_checksum_or_die_valid (a : string) :
  is_address a = true ->
  exists c, App.to_checksum_or_die keccak_nibble a = inr c
            /\ to_checksum_address a = Some c.
Proof.
  intros H. unfold App.to_checksum_or_die. rewrite H. simpl.
  rewrite (checksum_of_hex_address a H). cbv zeta. eauto.
Qed.

Lemma to_checksum_or_die_inr (a c : string) :
  App.to_checksum_or_die keccak_nibble a = inr c ->
  is_address a = true /\ to_checksum_address a = Some c.
Proof.
  unfold App.to_checksum_or_die.
  destruct (is_address a); simpl; [ | discriminate ].
  destruct (to_checksum_address a); [ | discriminate ].
  intros E; injection E as <-. auto.
Qed.

Lemma to_checksum_or_die_inl (a : string) (e : App.address_error) :
  App.to_checksum_or_die keccak_nibble a = inl e -> is_address a = false.
Proof.
  destruct (is_address a) eqn:H; [ | reflexivity ].
  destruct (to_checksum_or_die_valid a H) as [c [-> _]]. discriminate.
Qed.

End AddressFacts.

(** C7. For every valid address [a] (one [Web3.is_address] accepts: 40
    hexadecimal digits in any mix of upper and lower case, with or without
    [0x] in front), [to_checksum_or_die] returns, and applying it to its own
    result returns that result again: normalization is idempotent. *)
Theorem normalize_address_idempotent
  (keccak_nibble : string -> nat -> Z) (a : string) :
  EthUtils.is_address a = true ->
  exists c,
    App.to_checksum_or_die keccak_nibble a = inr c
    /\ App.to_checksum_or_die keccak_nibble c = inr c.
Proof.
  intros H.
  destruct (to_checksum_or_die_valid keccak_nibble a H) as [c [Hc Hcs]].
  exists c. split; [ exact Hc | ].
  destruct (checksummed_fixed keccak_nibble a c H Hcs) as [Hv Hfix].
  unfold App.to_checksum_or_die. rewrite Hv, Hfix. reflexivity.
Qed.

(** ** Runs of [main] *)

Section RunFacts.

Import App Shown.

Variable keccak_nibble : string -> nat -> Z.

Abbreviation main := (App.main keccak_nibble).
Abbreviation to_checksum_or_die := (App.to_checksum_or_die keccak_nibble).
Abbreviation valid_inputs := Shown.valid_inputs.

Lemma valid_inputs_true (a : args) :
  valid_inputs a = true ->
  starts_http (rpc a) = true
  /\ exists tok own spd,
       to_checksum_or_die (token a) = inr tok
       /\ to_checksum_or_die (owner a) = inr own
       /\ to_checksum_or_die (spender a) = inr spd.
Proof.
  unfold Shown.valid_inputs. intros H.
  apply andb_prop in H as [H Hs]. apply andb_prop in H as [H Ho].
  apply andb_prop in H as [Hr Ht].
  destruct (to_checksum_or_die_valid keccak_nibble _ Ht) as [tok [Et _]].
  destruct (to_checksum_or_die_valid keccak_nibble _ Ho) as [own [Eo _]].
  destruct (to_checksum_or_die_valid keccak_nibble _ Hs) as [spd [Es _]].
  split; [ exact Hr | ]. exists tok, own, spd. auto.
Qed.

(** A run that fails before the allowance is asked for. *)
Lemma run_config_error (w : world) (a : args) :
  valid_inputs a = false \/ connected w = false ->
  exists l,
    is_config_error l = true
    /\ snd (run w (main a)) = Exit 1
    /\ printed (fst (run w (main a))) = [l]
    /\ (network_calls (fst (run w (main a))) = []
        \/ (valid_inputs a = true
            /\ network_calls (fst (run w (main a)))
               = [EIsConnected (rpc a) (timeout a)])).
Proof.
  intros H. unfold run, App.main, Shown.valid_inputs in *.
  cbn [run_from bind perform print answer].
  destruct (starts_http (rpc a)); cbn [negb andb];
    [ | exists LInvalidRpc; cbn; repeat split; auto ].
  destruct (to_checksum_or_die (token a)) as [e | tok] eqn:Et;
    [ exists (LAddressError e); cbn; repeat split; auto | ].
  destruct (to_checksum_or_die (owner a)) as [e | own] eqn:Eo;
    [ exists (LAddressError e); cbn; repeat split; auto | ].
  destruct (to_checksum_or_die (spender a)) as [e | spd] eqn:Es;
    [ exists (LAddressError e); cbn; repeat split; auto | ].
  apply to_checksum_or_die_inr in Et as [Et _].
  apply to_checksum_or_die_inr in Eo as [Eo _].
  apply to_checksum_or_die_inr in Es as [Es _].
  rewrite Et, Eo, Es in *. cbn [andb] in H.
  destruct H as [H | H]; [ discriminate | ].
  cbn [run_from bind perform print answer]. rewrite H.
  exists LConnectionFailed; cbn; repeat split; auto.
Qed.

(** A run whose allowance call raises. *)
Lemma run_fetch_failed (w : world) (a : args) (tok own spd : string) :
  starts_http (rpc a) = true ->
  to_checksum_or_die (token a) = inr tok ->
  to_checksum_or_die (owner a) = inr own ->
  to_checksum_or_die (spender a) = inr spd ->
  connected w = true ->
  forall msg,
    (exists e, allowance w = AllowanceBadCall e
               /\ msg = "Allowance call failed (is this a valid ERC20?): " ++ e)
    \/ (exists e, allowance w = AllowanceOther e
                  /\ msg = "Failed to fetch allowance: " ++ e) ->
    run w (main a)
    = (([EClock; EIsConnected (rpc a) (timeout a);
         ECallName tok; ECallSymbol tok; ECallDecimals tok;
         EPrint LBanner; EChainId]
        ++ map EPrint (tl (header a (world_meta w) (chain_id w 0) tok own spd))
        ++ [ECallAllowance tok own spd (block a); EPrint (LAllowanceError msg)])%list,
       Exit 2).
Proof.
  intros Hr Ht Ho Hs Hc msg Hm.
  unfold run, App.main.
  cbn [run_from bind perform print answer].
  rewrite Hr, Ht, Ho, Hs. cbn [negb run_from bind perform print answer].
  rewrite Hc.
  cbn [negb run_from bind perform print answer fetch_erc20_meta get_allowance
       filter is_chain_id is_clock List.length].
  unfold world_meta, header.
  destruct (chain_id w 0);
    cbn [negb run_from bind perform print answer fetch_erc20_meta get_allowance
         filter is_chain_id is_clock List.length];
    destruct Hm as [[e [-> ->]] | [e [-> ->]]]; reflexivity.
Qed.

(** A run whose allowance call returns [raw]. *)
Lemma run_fetched (w : world) (a : args) (tok own spd : string)
  (raw : N) (human : string) :
  starts_http (rpc a) = true ->
  to_checksum_or_die (token a) = inr tok ->
  to_checksum_or_die (owner a) = inr own ->
  to_checksum_or_die (spender a) = inr spd ->
  connected w = true ->
  allowance w = AllowanceOk raw ->
  human_amount (Z.of_N raw) (decimals (world_meta w)) = inr human ->
  run w (main a)
  = (fetched_trace w a tok own spd (Z.of_N raw) human,
     Exit (match verdict a (world_meta w) (Z.of_N raw) with
           | Some false => 2
           | _ => 0
           end)).
Proof.
  intros Hr Ht Ho Hs Hc Ha Hh.
  unfold run, App.main.
  cbn [run_from bind perform print answer].
  rewrite Hr, Ht, Ho, Hs. cbn [negb run_from bind perform print answer].
  rewrite Hc.
  cbn [negb run_from bind perform print answer fetch_erc20_meta get_allowance
       filter is_chain_id is_clock List.length].
  unfold fetched_trace, report_of, allowance_lines, comparison_lines, verdict,
    expected_raw_of, elapsed_of, header.
  fold (world_meta w).
  destruct (chain_id w 0);
    cbn [negb run_from bind perform print answer fetch_erc20_meta get_allowance
         filter is_chain_id is_clock List.length];
    rewrite Ha;
    cbn [negb run_from bind perform print answer fetch_erc20_meta get_allowance
         filter is_chain_id is_clock List.length];
    rewrite Hh;
    destruct (Z.of_N raw =? 0);
    (destruct (expected a) as [text | ];
     [ destruct (expected_to_raw text (decimals (world_meta w))) as [e | er];
       [ | destruct (er =? Z.of_N raw) ] | ]);
    destruct (json a); reflexivity.
Qed.

End RunFacts.

(** ** Formatting never fails on a [uint256] *)

Lemma ilog2_ratio_le (n d : Z) : PyFloat.ilog2_ratio n d <= Z.log2 n.
Proof.
  unfold PyFloat.ilog2_ratio. pose proof (Z.log2_nonneg d).
  destruct (_ <? _); lia.
Qed.

Lemma fl_round_finite_below (s : bool) (n d : Z) :
  n < 2 ^ 256 ->
  forall s', PyFloat.fl_round s n d <> S754_infinity s'.
Proof.
  intros Hn s'. unfold PyFloat.fl_round.
  destruct (n <=? 0) eqn:Hz; [ discriminate | ].
  apply Z.leb_gt in Hz.
  pose proof (ilog2_ratio_le n d) as Hk.
  assert (Hl : Z.log2 n < 256) by (apply Z.log2_lt_pow2; lia).
  set (e := Z.max (PyFloat.ilog2_ratio n d - (PyFloat.prec - 1)) PyFloat.emin).
  assert (He : e <= 203) by (unfold e, PyFloat.prec, PyFloat.emin; lia).
  destruct (_ =? 2 ^ PyFloat.prec).
  - replace (e + 1 <=? PyFloat.emax - PyFloat.prec) with true
      by (symmetry; apply Z.leb_le; unfold PyFloat.emax, PyFloat.prec; lia).
    destruct (2 ^ (PyFloat.prec - 1)); discriminate.
  - replace (e <=? PyFloat.emax - PyFloat.prec) with true
      by (symmetry; apply Z.leb_le; unfold PyFloat.emax, PyFloat.prec; lia).
    destruct (PyFloat.rne_div _ _); discriminate.
Qed.

Lemma human_amount_total (raw d : Z) :
  0 <= raw < 2 ^ 256 -> exists h, App.human_amount raw d = inr h.
Proof.
  intros Hr. unfold App.human_amount.
  destruct (d <=? 0) eqn:Hd; [ eauto | ].
  apply Z.leb_gt in Hd.
  unfold PyFloat.true_div.
  assert (Hp : 0 < 10 ^ d) by (apply Z.pow_pos_nonneg; lia).
  replace (10 ^ d =? 0) with false by (symmetry; apply Z.eqb_neq; lia).
  pose proof (fl_round_finite_below (xorb (raw <? 0) (10 ^ d <? 0))
                (Z.abs raw) (Z.abs (10 ^ d))) as Hf.
  destruct (PyFloat.fl_round _ _ _) eqn:E; eauto.
  exfalso. apply (Hf ltac:(lia) s). reflexivity.
Qed.

(** ** The claims about [main] *)

Section MainFacts.

Import App Shown.

Variable keccak_nibble : string -> nat -> Z.

Abbreviation main := (App.main keccak_nibble).
Abbreviation valid_inputs := Shown.valid_inputs.

(** Everything a run that fetched the allowance is made of. *)
Lemma run_fetched_valid (w : world) (a : args) (raw : N) :
  valid_inputs a = true ->
  connected w = true ->
  allowance w = AllowanceOk raw ->
  Z.of_N raw < 2 ^ 256 ->
  exists tok own spd human,
    App.to_checksum_or_die keccak_nibble (token a) = inr tok
    /\ App.to_checksum_or_die keccak_nibble (owner a) = inr own
    /\ App.to_checksum_or_die keccak_nibble (spender a) = inr spd
    /\ human_amount (Z.of_N raw) (decimals (world_meta w)) = inr human
    /\ run w (main a)
       = (fetched_trace w a tok own spd (Z.of_N raw) human,
          Exit (match verdict a (world_meta w) (Z.of_N raw) with
                | Some false => 2
                | _ => 0
                end)).
Proof.
  intros Hv Hc Ha Hr.
  destruct (valid_inputs_true keccak_nibble a Hv) as [Hh [tok [own [spd [Et [Eo Es]]]]]].
  destruct (human_amount_total (Z.of_N raw) (decimals (world_meta w))) as [human Eh];
    [ lia | ].
  exists tok, own, spd, human. repeat split; try assumption.
  apply run_fetched; assumption.
Qed.

Lemma printed_app (t u : list effect) : printed (t ++ u) = (printed t ++ printed u)%list.
Proof. unfold printed. apply flat_map_app. Qed.

Lemma printed_map_EPrint (ls : list line) : printed (map EPrint ls) = ls.
Proof. induction ls; simpl; congruence. Qed.

(** The lines of a run that fetched the allowance. *)
Lemma printed_fetched (w : world) (a : args) (tok own spd : string)
  (raw : Z) (human : string) :
  printed (fetched_trace w a tok own spd raw human)
  = (header a (world_meta w) (chain_id w 0) tok own spd
     ++ allowance_lines a (world_meta w) raw human
     ++ [LCompleted (elapsed_of w)]
     ++ (if json a then [LJson (report_of w a tok own spd raw human)] else []))%list.
Proof.
  unfold fetched_trace. cbv zeta.
  rewrite !printed_app, !printed_map_EPrint.
  destruct (json a); reflexivity.
Qed.

(** C1. The exit status of every run: 1 when the RPC URL does not start
    with [http://] or [https://], when one of the three addresses is not
    valid, or when the connection fails; otherwise 2 when the allowance call
    fails or the expected amount differs from the raw allowance; otherwise
    0 (no expected amount, one that matches, or one that does not parse). *)
Theorem exit_code_policy (w : world) (a : args) :
  allowance_in_range w ->
  snd (run w (main a))
  = Exit (if negb (valid_inputs a) || negb (connected w) then 1
          else match allowance w with
               | AllowanceOk raw =>
                   match expected a with
                   | None => 0
                   | Some text =>
                       match expected_to_raw text (decimals (world_meta w)) with
                       | inr expected_raw =>
                           if expected_raw =? Z.of_N raw then 0 else 2
                       | inl _ => 0
                       end
                   end
               | AllowanceBadCall _ | AllowanceOther _ => 2
               end).
Proof.
  intros Hrange.
  destruct (valid_inputs a) eqn:Hv; cbn [negb orb].
  2: { destruct (run_config_error keccak_nibble w a (or_introl Hv)) as [l [_ [E _]]].
       exact E. }
  destruct (connected w) eqn:Hc; cbn [negb].
  2: { destruct (run_config_error keccak_nibble w a (or_intror Hc)) as [l [_ [E _]]].
       exact E. }
  destruct (valid_inputs_true keccak_nibble a Hv) as [Hh [tok [own [spd [Et [Eo Es]]]]]].
  unfold allowance_in_range in Hrange.
  destruct (allowance w) as [raw | e | e] eqn:Ha.
  - destruct (run_fetched_valid w a raw Hv Hc Ha Hrange)
      as [tok' [own' [spd' [human [_ [_ [_ [_ E]]]]]]]].
    rewrite E. cbn [snd]. unfold verdict.
    destruct (expected a) as [text | ]; [ | reflexivity ].
    destruct (expected_to_raw _ _) as [err | er]; [ reflexivity | ].
    destruct (er =? Z.of_N raw); reflexivity.
  - rewrite (run_fetch_failed keccak_nibble w a tok own spd Hh Et Eo Es Hc _
               (or_introl (ex_intro _ e (conj Ha eq_refl)))).
    reflexivity.
  - rewrite (run_fetch_failed keccak_nibble w a tok own spd Hh Et Eo Es Hc _
               (or_intror (ex_intro _ e (conj Ha eq_refl)))).
    reflexivity.
Qed.

(** C2, as the code has it.  A failure before the allowance is asked for
    (RPC URL, an address, the connection) prints one error line and nothing
    else and exits with 1.  A failed allowance call comes after the header
    was printed: the run shows the header lines, then one error line, and
    exits with 2; no allowance line and no JSON document follow. *)
Theorem fatal_paths (w : world) (a : args) :
  (valid_inputs a = false \/ connected w = false ->
   exists l,
     is_config_error l = true
     /\ printed (fst (run w (main a))) = [l]
     /\ snd (run w (main a)) = Exit 1)
  /\ (valid_inputs a = true -> connected w = true ->
      forall e, allowance w = AllowanceBadCall e \/ allowance w = AllowanceOther e ->
      exists tok own spd msg,
        printed (fst (run w (main a)))
        = (header a (world_meta w) (chain_id w 0) tok own spd
           ++ [LAllowanceError msg])%list
        /\ snd (run w (main a)) = Exit 2).
Proof.
  split.
  - intros H. destruct (run_config_error keccak_nibble w a H) as [l [Hl [E [P _]]]].
    exists l. auto.
  - intros Hv Hc e He.
    destruct (valid_inputs_true keccak_nibble a Hv) as [Hh [tok [own [spd [Et [Eo Es]]]]]].
    exists tok, own, spd.
    destruct He as [He | He].
    + eexists.
      rewrite (run_fetch_failed keccak_nibble w a tok own spd Hh Et Eo Es Hc _
                 (or_introl (ex_intro _ e (conj He eq_refl)))).
      cbn [fst snd]. split; [ | reflexivity ].
      rewrite !printed_app, printed_map_EPrint. reflexivity.
    + eexists.
      rewrite (run_fetch_failed keccak_nibble w a tok own spd Hh Et Eo Es Hc _
                 (or_intror (ex_intro _ e (conj He eq_refl)))).
      cbn [fst snd]. split; [ | reflexivity ].
      rewrite !printed_app, printed_map_EPrint. reflexivity.
Qed.

(** C4. When the RPC URL starts with neither [http://] nor [https://], the
    run is: read the clock, print the error line, exit with 1.  No call to
    the network is made, the connection probe included. *)
Theorem invalid_rpc_fails_before_network (w : world) (a : args) :
  starts_http (rpc a) = false ->
  run w (main a) = ([EClock; EPrint LInvalidRpc], Exit 1)
  /\ network_calls (fst (run w (main a))) = [].
Proof.
  intros H.
  assert (E : run w (main a) = ([EClock; EPrint LInvalidRpc], Exit 1)).
  { unfold run, App.main. cbn [run_from bind perform print answer].
    rewrite H. reflexivity. }
  rewrite E. split; reflexivity.
Qed.

(** C5. [fetch_erc20_meta] makes its three calls whatever each one answers,
    and each field of the result is the answer of its own call, or its own
    default (["Unknown"], ["???"], 18) when that call raises; and [main]
    goes on to the banner after them. *)
Theorem metadata_failure_isolated (w : world) (hist : list effect) (contract : string) :
  run_from w hist (fetch_erc20_meta contract)
  = ([ECallName contract; ECallSymbol contract; ECallDecimals contract],
     {| name := match name_reply w with Some v => v | None => "Unknown" end;
        symbol := match symbol_reply w with Some v => v | None => "???" end;
        decimals := match decimals_reply w with
                    | Some v => Z.of_N v
                    | None => 18
                    end |})
  /\ forall a,
       valid_inputs a = true -> connected w = true ->
       exists tok rest,
         fst (run w (main a))
         = ([EClock; EIsConnected (rpc a) (timeout a);
             ECallName tok; ECallSymbol tok; ECallDecimals tok;
             EPrint LBanner] ++ rest)%list.
Proof.
  split; [ reflexivity | ].
  intros a Hv Hc.
  destruct (valid_inputs_true keccak_nibble a Hv) as [Hh [tok [own [spd [Et [Eo Es]]]]]].
  exists tok.
  destruct (allowance w) as [raw | e | e] eqn:Ha.
  - destruct (human_amount (Z.of_N raw) (decimals (world_meta w))) as [err | human] eqn:Eh.
    + unfold run, App.main. cbn [run_from bind perform print answer].
      rewrite Hh, Et, Eo, Es. cbn [negb run_from bind perform print answer].
      rewrite Hc.
      cbn [negb run_from bind perform print answer fetch_erc20_meta].
      destruct (run_from _ _ _) as [t o]. cbn [fst]. eexists. reflexivity.
    + rewrite (run_fetched keccak_nibble w a tok own spd raw human Hh Et Eo Es Hc Ha Eh).
      cbn [fst]. unfold fetched_trace. eexists. reflexivity.
  - rewrite (run_fetch_failed keccak_nibble w a tok own spd Hh Et Eo Es Hc _
               (or_introl (ex_intro _ e (conj Ha eq_refl)))).
    cbn [fst]. eexists. reflexivity.
  - rewrite (run_fetch_failed keccak_nibble w a tok own spd Hh Et Eo Es Hc _
               (or_intror (ex_intro _ e (conj Ha eq_refl)))).
    cbn [fst]. eexists. reflexivity.
Qed.

(** C8. In a run that fetches the allowance, the zero-allowance warning is
    among the printed lines exactly when the raw allowance is 0. *)
Theorem zero_allowance_warning (w : world) (a : args) (raw : N) :
  valid_inputs a = true ->
  connected w = true ->
  allowance w = AllowanceOk raw ->
  Z.of_N raw < 2 ^ 256 ->
  In LZeroWarning (printed (fst (run w (main a)))) <-> raw = 0%N.
Proof.
  intros Hv Hc Ha Hr.
  destruct (run_fetched_valid w a raw Hv Hc Ha Hr)
    as [tok [own [spd [human [_ [_ [_ [_ E]]]]]]]].
  rewrite E. cbn [fst]. rewrite printed_fetched.
  unfold header, allowance_lines, comparison_lines.
  destruct (Z.eqb_spec (Z.of_N raw) 0) as [Hz | Hz].
  - split; [ lia | intros _ ].
    apply in_or_app. right. apply in_or_app. left. simpl. auto.
  - split; [ | lia ]. intros Hin. exfalso.
    destruct (chain_id w 0); destruct (json a);
      (destruct (expected a) as [text | ];
       [ destruct (expected_to_raw text (decimals (world_meta w))) | ]);
      simpl in Hin; intuition discriminate.
Qed.

(** C9. With [--json], a run that fetches the allowance ends by printing
    the JSON document, whose [match] field is the verdict; when the expected
    amount differs from the allowance that field is [false], the document is
    still the last thing printed, and the exit status is 2. *)
Theorem json_printed_before_exit (w : world) (a : args) (raw : N) :
  json a = true ->
  valid_inputs a = true ->
  connected w = true ->
  allowance w = AllowanceOk raw ->
  Z.of_N raw < 2 ^ 256 ->
  exists before tok own spd human,
    fst (run w (main a))
    = (before ++ [EPrint (LJson (report_of w a tok own spd (Z.of_N raw) human))])%list
    /\ out_match (report_of w a tok own spd (Z.of_N raw) human)
       = verdict a (world_meta w) (Z.of_N raw)
    /\ forall text expected_raw,
         expected a = Some text ->
         expected_to_raw text (decimals (world_meta w)) = inr expected_raw ->
         expected_raw <> Z.of_N raw ->
         out_match (report_of w a tok own spd (Z.of_N raw) human) = Some false
         /\ out_expected_raw (report_of w a tok own spd (Z.of_N raw) human)
            = Some expected_raw
         /\ snd (run w (main a)) = Exit 2.
Proof.
  intros Hj Hv Hc Ha Hr.
  destruct (run_fetched_valid w a raw Hv Hc Ha Hr)
    as [tok [own [spd [human [_ [_ [_ [_ E]]]]]]]].
  rewrite E. cbn [fst snd]. unfold fetched_trace. cbv zeta. rewrite Hj.
  eexists. exists tok, own, spd, human. split; [ | split ].
  - change [EChainId; EPrint (LJson (report_of w a tok own spd (Z.of_N raw) human))]
      with ([EChainId]
            ++ [EPrint (LJson (report_of w a tok own spd (Z.of_N raw) human))])%list.
    rewrite !app_assoc. reflexivity.
  - reflexivity.
  - intros text er Ht Her Hne.
    unfold report_of, verdict, expected_raw_of. cbn [out_match out_expected_raw].
    rewrite Ht, Her.
    replace (er =? Z.of_N raw) with false by (symmetry; apply Z.eqb_neq; exact Hne).
    auto.
Qed.

(** C6. When the [--expected] text does not lead to a raw amount (it is no
    float, or the product is infinite or NaN), the run still fetches and
    prints the allowance and exits with 0; no comparison line is printed;
    and, the warning line and the echo of the text in the JSON document
    apart, the lines are those of the run without [--expected]. *)
Theorem expected_parse_failure_skips_comparison
  (w : world) (a : args) (raw : N) (text : string) (e : expected_error) :
  valid_inputs a = true ->
  connected w = true ->
  allowance w = AllowanceOk raw ->
  Z.of_N raw < 2 ^ 256 ->
  expected a = Some text ->
  expected_to_raw text (decimals (world_meta w)) = inl e ->
  let lines := printed (fst (run w (main a))) in
  snd (run w (main a)) = Exit 0
  /\ In (LAllowanceRaw (Z.of_N raw)) lines
  /\ In (LCouldNotParse text e) lines
  /\ (forall b, ~ In (LVerdict b) lines)
  /\ map without_expected_text
         (filter (fun l => negb (is_parse_warning l)) lines)
     = printed (fst (run w (main (without_expected a))))
  /\ snd (run w (main (without_expected a))) = Exit 0.
Proof.
  intros Hv Hc Ha Hr Ht He lines.
  destruct (valid_inputs_true keccak_nibble a Hv) as [Hh [tok [own [spd [Et [Eo Es]]]]]].
  destruct (human_amount_total (Z.of_N raw) (decimals (world_meta w))) as [human Eh];
    [ lia | ].
  pose proof (run_fetched keccak_nibble w a tok own spd raw human
                Hh Et Eo Es Hc Ha Eh) as E.
  pose proof (run_fetched keccak_nibble w (without_expected a) tok own spd raw human
                Hh Et Eo Es Hc Ha Eh) as E'.
  subst lines. rewrite E, E'. cbn [fst snd]. rewrite !printed_fetched.
  unfold verdict, header, allowance_lines, comparison_lines, report_of,
    expected_raw_of, verdict.
  cbn [expected without_expected json rpc block].
  rewrite Ht, He.
  repeat split.
  - apply in_or_app. right. simpl. left. reflexivity.
  - destruct (chain_id w 0); destruct (Z.of_N raw =? 0); destruct (json a);
      simpl; intuition.
  - intros b Hin.
    destruct (chain_id w 0); destruct (Z.of_N raw =? 0); destruct (json a);
      simpl in Hin; intuition discriminate.
  - destruct (chain_id w 0); destruct (Z.of_N raw =? 0); destruct (json a);
      reflexivity.
Qed.

End MainFacts.

(** ** The claims at sample inputs *)

Section Samples.

Import App Shown Sample.

Lemma normalize_address_idempotent_witness :
  EthUtils.is_address mixed_addr = true
  /\ to_checksum_or_die toy_hash mixed_addr
     = inr "0xdac17f958D2EE523a2206206994597C13d831ec7"
  /\ exists c,
       to_checksum_or_die toy_hash mixed_addr = inr c
       /\ to_checksum_or_die toy_hash c = inr c.
Proof.
  split; [ vm_compute; reflexivity | ]. split; [ vm_compute; reflexivity | ].
  exact (normalize_address_idempotent toy_hash mixed_addr
           ltac:(vm_compute; reflexivity)).
Defined.

Lemma exit_code_policy_witness :
  allowance_in_range (world_of true (AllowanceOk 100000000000000000000))
  /\ snd (run (world_of true (AllowanceOk 100000000000000000000))
            (main toy_hash (args_of "https://rpc.example" (Some "100.5") false)))
     = Exit 2.
Proof.
  split; [ vm_compute; reflexivity | ].
  refine (eq_trans
            (exit_code_policy toy_hash
               (world_of true (AllowanceOk 100000000000000000000))
               (args_of "https://rpc.example" (Some "100.5") false) _) _);
    vm_compute; reflexivity.
Defined.

(** C2 as stated fails: a run whose allowance call raises has printed the
    seven header lines before its error line. *)
Lemma fetch_failure_prints_header :
  let t := fst (run (world_of true (AllowanceOther "timeout"))
                    (main toy_hash (args_of "https://rpc.example" None true))) in
  snd (run (world_of true (AllowanceOther "timeout"))
           (main toy_hash (args_of "https://rpc.example" None true))) = Exit 2
  /\ printed t
     = [LBanner; LChainId 1; LRpc "https://rpc.example"; LBlock "latest";
        LToken "Tether USD" "???" "0xdac17f958D2EE523a2206206994597C13d831ec7";
        LOwner "0x00000000000000000000000000000000000000a1";
        LSpender "0x00000000000000000000000000000000000000b2";
        LAllowanceError "Failed to fetch allowance: timeout"]
  /\ ~ (exists l, printed t = [l]).
Proof.
  cbv zeta. split; [ vm_compute; reflexivity | ].
  split; [ vm_compute; reflexivity | ].
  intros [l H]. vm_compute in H. discriminate H.
Qed.

Lemma fatal_paths_witness :
  (exists l,
     is_config_error l = true
     /\ printed (fst (run (world_of false (AllowanceOk 5))
                          (main toy_hash (args_of "https://rpc.example" None true))))
        = [l]
     /\ snd (run (world_of false (AllowanceOk 5))
                 (main toy_hash (args_of "https://rpc.example" None true)))
        = Exit 1)
  /\ (exists tok own spd msg,
        printed (fst (run (world_of true (AllowanceBadCall "reverted"))
                          (main toy_hash (args_of "https://rpc.example" None true))))
        = (header (args_of "https://rpc.example" None true)
             (world_meta (world_of true (AllowanceBadCall "reverted")))
             (Some 1) tok own spd
           ++ [LAllowanceError msg])%list
        /\ snd (run (world_of true (AllowanceBadCall "reverted"))
                    (main toy_hash (args_of "https://rpc.example" None true)))
           = Exit 2).
Proof.
  split.
  - apply (proj1 (fatal_paths toy_hash (world_of false (AllowanceOk 5))
                    (args_of "https://rpc.example" None true))).
    right. reflexivity.
  - refine (proj2 (fatal_paths toy_hash (world_of true (AllowanceBadCall "reverted"))
                     (args_of "https://rpc.example" None true))
              _ _ "reverted" _);
      [ vm_compute; reflexivity | reflexivity | left; reflexivity ].
Defined.

Lemma invalid_rpc_fails_before_network_witness :
  starts_http "ftp://example.com" = false
  /\ run (world_of true (AllowanceOk 5))
         (main toy_hash (args_of "ftp://example.com" None false))
     = ([EClock; EPrint LInvalidRpc], Exit 1)
  /\ network_calls
       (fst (run (world_of true (AllowanceOk 5))
                 (main toy_hash (args_of "ftp://example.com" None false))))
     = [].
Proof.
  split; [ vm_compute; reflexivity | ].
  apply (invalid_rpc_fails_before_network toy_hash (world_of true (AllowanceOk 5))
           (args_of "ftp://example.com" None false)).
  vm_compute; reflexivity.
Defined.

Lemma metadata_failure_isolated_witness :
  run_from (world_of true (AllowanceOk 5)) [] (fetch_erc20_meta token_addr)
  = ([ECallName token_addr; ECallSymbol token_addr; ECallDecimals token_addr],
     {| name := "Tether USD"; symbol := "???"; decimals := 18 |})
  /\ exists tok rest,
       fst (run (world_of true (AllowanceOk 5))
                (main toy_hash (args_of "https://rpc.example" None false)))
       = ([EClock; EIsConnected "https://rpc.example" 30;
           ECallName tok; ECallSymbol tok; ECallDecimals tok;
           EPrint LBanner] ++ rest)%list.
Proof.
  split.
  - apply (proj1 (metadata_failure_isolated toy_hash (world_of true (AllowanceOk 5))
                    [] token_addr)).
  - apply (proj2 (metadata_failure_isolated toy_hash (world_of true (AllowanceOk 5))
                    [] token_addr)
             (args_of "https://rpc.example" None false));
      vm_compute; reflexivity.
Defined.

Lemma zero_allowance_warning_witness :
  In LZeroWarning
    (printed (fst (run (world_of true (AllowanceOk 0))
                       (main toy_hash (args_of "https://rpc.example" None false)))))
  <-> 0%N = 0%N.
Proof.
  apply (zero_allowance_warning toy_hash (world_of true (AllowanceOk 0))
           (args_of "https://rpc.example" None false) 0);
    vm_compute; reflexivity.
Defined.

Lemma json_printed_before_exit_witness :
  exists before tok own spd human,
    fst (run (world_of true (AllowanceOk 100000000000000000000))
             (main toy_hash (args_of "https://rpc.example" (Some "100.5") true)))
    = (before
       ++ [EPrint (LJson (report_of (world_of true (AllowanceOk 100000000000000000000))
                            (args_of "https://rpc.example" (Some "100.5") true)
                            tok own spd 100000000000000000000 human))])%list
    /\ out_match (report_of (world_of true (AllowanceOk 100000000000000000000))
                    (args_of "https://rpc.example" (Some "100.5") true)
                    tok own spd 100000000000000000000 human)
       = Some false
    /\ snd (run (world_of true (AllowanceOk 100000000000000000000))
                (main toy_hash (args_of "https://rpc.example" (Some "100.5") true)))
       = Exit 2.
Proof.
  destruct (json_printed_before_exit toy_hash
              (world_of true (AllowanceOk 100000000000000000000))
              (args_of "https://rpc.example" (Some "100.5") true)
              100000000000000000000
              eq_refl ltac:(vm_compute; reflexivity) eq_refl eq_refl
              ltac:(vm_compute; reflexivity))
    as [before [tok [own [spd [human [E [_ H]]]]]]].
  exists before, tok, own, spd, human.
  destruct (H "100.5" 100500000000000000000 eq_refl
              ltac:(vm_compute; reflexivity) ltac:(discriminate))
    as [Hm [_ Hx]].
  auto.
Defined.

Lemma expected_parse_failure_skips_comparison_witness :
  expected_to_raw "about 100" 18 = inl (NotAFloat "about 100")
  /\ snd (run (world_of true (AllowanceOk 7))
              (main toy_hash (args_of "https://rpc.example" (Some "about 100") true)))
     = Exit 0.
Proof.
  split; [ vm_compute; reflexivity | ].
  exact (proj1 (expected_parse_failure_skips_comparison toy_hash
                  (world_of true (AllowanceOk 7))
                  (args_of "https://rpc.example" (Some "about 100") true)
                  7 "about 100" (NotAFloat "about 100")
                  ltac:(vm_compute; reflexivity) eq_refl eq_refl
                  ltac:(vm_compute; reflexivity) eq_refl
                  ltac:(vm_compute; reflexivity))).
Defined.

End Samples.

(* ================================================================== *)
(** * Further properties *)

(** ** [to_checksum_or_die] *)

Section AddressExtras.

Variable keccak_nibble : string -> nat -> Z.

Abbreviation to_checksum_or_die := (App.to_checksum_or_die keccak_nibble).
Abbreviation to_checksum_address := (EthUtils.to_checksum_address keccak_nibble).

(** X1. The only error of [to_checksum_or_die] is its own [ValueError]
    naming the text it was given (the library's normalization error never
    reaches the caller), and whether it is raised depends on the text with
    the case of its letters set aside: it is raised exactly when the
    lower-case text is not 40 hexadecimal digits after an optional [0x]. *)
Theorem to_checksum_or_die_error (a : string) (e : App.address_error) :
  to_checksum_or_die a = inl e <->
  e = App.InvalidEthereumAddress a
  /\ EthUtils.is_hex_address (PyStr.lower a) = false.
Proof.
  rewrite lower_hex_address.
  split.
  - intros H.
    pose proof (to_checksum_or_die_inl keccak_nibble a e H) as Hv.
    unfold App.to_checksum_or_die in H. rewrite Hv in H. cbn [negb] in H.
    injection H as <-. split; [ reflexivity | exact Hv ].
  - intros [-> Hv]. unfold App.to_checksum_or_die, EthUtils.is_address.
    rewrite Hv. reflexivity.
Qed.

(** X2. What [to_checksum_or_die] returns is 42 characters long, starts
    with [0x], differs from the digits it was given in letter case only, and
    is a checksum address ([is_checksum_address]); it is the text it was
    given only when that text was one already. *)
Theorem to_checksum_or_die_shape (a c : string) :
  to_checksum_or_die a = inr c ->
  String.length c = 42%nat
  /\ PyStr.startswith "0x" c = true
  /\ PyStr.lower c = "0x" ++ PyStr.lower (EthUtils.remove_0x_prefix a)
  /\ EthUtils.is_checksum_address keccak_nibble c = true
  /\ (c = a <-> EthUtils.is_checksum_address keccak_nibble a = true).
Proof.
  intros H.
  destruct (to_checksum_or_die_inr keccak_nibble a c H) as [Hv Hc].
  pose proof Hc as Hc'.
  rewrite (checksum_of_hex_address keccak_nibble a Hv) in Hc'. cbv zeta in Hc'.
  injection Hc' as Ec.
  assert (Hlen : String.length (EthUtils.remove_0x_prefix a) = 40%nat).
  { unfold EthUtils.is_address, EthUtils.is_hex_address in Hv.
    apply andb_prop in Hv as [Hl _]. apply Nat.eqb_eq in Hl. exact Hl. }
  destruct (checksummed_fixed keccak_nibble a c Hv Hc) as [Hvc Hfix].
  assert (Hcc : EthUtils.is_checksum_address keccak_nibble c = true).
  { unfold EthUtils.is_checksum_address.
    change (EthUtils.is_hex_address c) with (EthUtils.is_address c).
    rewrite Hvc, Hfix, String.eqb_refl. reflexivity. }
  repeat split.
  - rewrite <- Ec. cbn [append String.length].
    rewrite checksum_length, lower_length, Hlen. reflexivity.
  - rewrite <- Ec. reflexivity.
  - rewrite <- Ec. cbn [append PyStr.lower]. rewrite lower_checksum, lower_idem.
    reflexivity.
  - exact Hcc.
  - intros <-. exact Hcc.
  - unfold EthUtils.is_checksum_address. rewrite Hc.
    intros Ha. apply andb_prop in Ha as [_ Ha].
    apply String.eqb_eq in Ha. symmetry. exact Ha.
Qed.

(** X3. The result depends on the digits only: two accepted texts with the
    same digits up to letter case (with or without [0x] or [0X] in front)
    give the same address. *)
Theorem to_checksum_or_die_case_insensitive (a b ca cb : string) :
  to_checksum_or_die a = inr ca ->
  to_checksum_or_die b = inr cb ->
  PyStr.lower (EthUtils.remove_0x_prefix a) = PyStr.lower (EthUtils.remove_0x_prefix b) ->
  ca = cb.
Proof.
  intros Ha Hb E.
  destruct (to_checksum_or_die_inr keccak_nibble a ca Ha) as [Hva Hca].
  destruct (to_checksum_or_die_inr keccak_nibble b cb Hb) as [Hvb Hcb].
  rewrite (checksum_of_hex_address keccak_nibble a Hva) in Hca.
  rewrite (checksum_of_hex_address keccak_nibble b Hvb) in Hcb.
  cbv zeta in Hca, Hcb. rewrite E in Hca. congruence.
Qed.

End AddressExtras.

(** ** Every run of [main] *)

Section RunCases.

Import App Shown Calls.

Variable keccak_nibble : string -> nat -> Z.

Abbreviation main := (App.main keccak_nibble).
Abbreviation valid_inputs := Shown.valid_inputs.
Abbreviation to_checksum_or_die := (App.to_checksum_or_die keccak_nibble).
Abbreviation is_address := EthUtils.is_address.

Lemma run_uncaught (w : world) (a : args) (tok own spd : string)
  (raw : N) (err : PyFloat.num_error) :
  starts_http (rpc a) = true ->
  to_checksum_or_die (token a) = inr tok ->
  to_checksum_or_die (owner a) = inr own ->
  to_checksum_or_die (spender a) = inr spd ->
  connected w = true ->
  allowance w = AllowanceOk raw ->
  human_amount (Z.of_N raw) (decimals (world_meta w)) = inl err ->
  run w (main a) = (up_to_allowance w a tok own spd, Uncaught err).
Proof.
  intros Hr Ht Ho Hs Hc Ha Hh.
  unfold run, App.main.
  cbn [run_from bind perform print answer].
  rewrite Hr, Ht, Ho, Hs. cbn [negb run_from bind perform print answer].
  rewrite Hc.
  cbn [negb run_from bind perform print answer fetch_erc20_meta get_allowance
       filter is_chain_id is_clock List.length].
  unfold Calls.up_to_allowance, header. fold (world_meta w).
  destruct (chain_id w 0);
    cbn [negb run_from bind perform print answer fetch_erc20_meta get_allowance
         filter is_chain_id is_clock List.length];
    rewrite Ha;
    cbn [negb run_from bind perform print answer fetch_erc20_meta get_allowance
         filter is_chain_id is_clock List.length];
    rewrite Hh; reflexivity.
Qed.

Lemma run_has_shape (w : world) (a : args) : run_shape keccak_nibble w a (run w (main a)).
Proof.
  destruct (starts_http (rpc a)) eqn:Hr.
  2: { replace (run w (main a)) with ([EClock; EPrint LInvalidRpc], Exit 1).
       - apply ShapeInvalidRpc. exact Hr.
       - unfold run, App.main. cbn [run_from bind perform print answer].
         rewrite Hr. reflexivity. }
  destruct (to_checksum_or_die (token a)) as [e | tok] eqn:Et.
  { pose proof (to_checksum_or_die_inl keccak_nibble _ _ Et) as Hv.
    unfold App.to_checksum_or_die in Et. rewrite Hv in Et. injection Et as <-.
    replace (run w (main a))
      with ([EClock; EPrint (LAddressError (InvalidEthereumAddress (token a)))], Exit 1).
    - apply ShapeInvalidAddress; [ exact Hr | ]. cbn [find]. rewrite Hv. reflexivity.
    - unfold run, App.main. cbn [run_from bind perform print answer].
      rewrite Hr. unfold App.to_checksum_or_die. rewrite Hv. reflexivity. }
  destruct (to_checksum_or_die (owner a)) as [e | own] eqn:Eo.
  { pose proof (to_checksum_or_die_inl keccak_nibble _ _ Eo) as Hv.
    unfold App.to_checksum_or_die in Eo. rewrite Hv in Eo. injection Eo as <-.
    replace (run w (main a))
      with ([EClock; EPrint (LAddressError (InvalidEthereumAddress (owner a)))], Exit 1).
    - apply ShapeInvalidAddress; [ exact Hr | ]. cbn [find].
      rewrite (proj1 (to_checksum_or_die_inr keccak_nibble _ _ Et)), Hv. reflexivity.
    - unfold run, App.main. cbn [run_from bind perform print answer].
      rewrite Hr, Et. unfold App.to_checksum_or_die at 1. rewrite Hv. reflexivity. }
  destruct (to_checksum_or_die (spender a)) as [e | spd] eqn:Es.
  { pose proof (to_checksum_or_die_inl keccak_nibble _ _ Es) as Hv.
    unfold App.to_checksum_or_die in Es. rewrite Hv in Es. injection Es as <-.
    replace (run w (main a))
      with ([EClock; EPrint (LAddressError (InvalidEthereumAddress (spender a)))], Exit 1).
    - apply ShapeInvalidAddress; [ exact Hr | ]. cbn [find].
      rewrite (proj1 (to_checksum_or_die_inr keccak_nibble _ _ Et)),
        (proj1 (to_checksum_or_die_inr keccak_nibble _ _ Eo)), Hv. reflexivity.
    - unfold run, App.main. cbn [run_from bind perform print answer].
      rewrite Hr, Et, Eo. unfold App.to_checksum_or_die at 1. rewrite Hv. reflexivity. }
  assert (Hv : valid_inputs a = true).
  { unfold Shown.valid_inputs.
    rewrite Hr, (proj1 (to_checksum_or_die_inr keccak_nibble _ _ Et)),
      (proj1 (to_checksum_or_die_inr keccak_nibble _ _ Eo)),
      (proj1 (to_checksum_or_die_inr keccak_nibble _ _ Es)). reflexivity. }
  destruct (connected w) eqn:Hc.
  2: { replace (run w (main a))
         with ([EClock; EIsConnected (rpc a) (timeout a); EPrint LConnectionFailed],
               Exit 1).
       - apply ShapeNotConnected; assumption.
       - unfold run, App.main. cbn [run_from bind perform print answer].
         rewrite Hr, Et, Eo, Es. cbn [negb run_from bind perform print answer].
         rewrite Hc. reflexivity. }
  destruct (allowance w) as [raw | e | e] eqn:Ha.
  - destruct (human_amount (Z.of_N raw) (decimals (world_meta w))) as [err | human] eqn:Eh.
    + rewrite (run_uncaught w a tok own spd raw err Hr Et Eo Es Hc Ha Eh).
      apply (ShapeUncaught keccak_nibble w a tok own spd raw err); assumption.
    + rewrite (run_fetched keccak_nibble w a tok own spd raw human Hr Et Eo Es Hc Ha Eh).
      apply (ShapeFetched keccak_nibble w a tok own spd raw human); assumption.
  - rewrite (run_fetch_failed keccak_nibble w a tok own spd Hr Et Eo Es Hc _
               (or_introl (ex_intro _ e (conj Ha eq_refl)))).
    match goal with
    | |- run_shape _ _ _ (?t, _) =>
        replace t with (up_to_allowance w a tok own spd
                        ++ [EPrint (LAllowanceError ("Allowance call failed (is this a valid ERC20?): " ++ e))])%list
          by (unfold up_to_allowance; rewrite <- !app_assoc; reflexivity)
    end.
    apply (ShapeFetchFailed keccak_nibble w a tok own spd _ Hv Hc Et Eo Es).
    left. exists e. auto.
  - rewrite (run_fetch_failed keccak_nibble w a tok own spd Hr Et Eo Es Hc _
               (or_intror (ex_intro _ e (conj Ha eq_refl)))).
    match goal with
    | |- run_shape _ _ _ (?t, _) =>
        replace t with (up_to_allowance w a tok own spd
                        ++ [EPrint (LAllowanceError ("Failed to fetch allowance: " ++ e))])%list
          by (unfold up_to_allowance; rewrite <- !app_assoc; reflexivity)
    end.
    apply (ShapeFetchFailed keccak_nibble w a tok own spd _ Hv Hc Et Eo Es).
    right. exists e. auto.
Qed.

End RunCases.

(** ** Which calls a run makes, and what its output says *)

Section MainExtras.

Import App Shown Calls.

Variable keccak_nibble : string -> nat -> Z.

Abbreviation main := (App.main keccak_nibble).
Abbreviation valid_inputs := Shown.valid_inputs.
Abbreviation to_checksum_or_die := (App.to_checksum_or_die keccak_nibble).
Abbreviation is_address := EthUtils.is_address.
Abbreviation run_shape := (Calls.run_shape keccak_nibble).

Lemma filter_map_EPrint (f : effect -> bool) (ls : list line) :
  (forall l, f (EPrint l) = false) -> filter f (map EPrint ls) = [].
Proof.
  intros H. induction ls as [ | l ls IH ]; cbn [map filter]; [ reflexivity | ].
  rewrite H. exact IH.
Qed.

Lemma contract_calls_up_to (w : world) (a : args) (tok own spd : string) :
  filter is_contract_call (up_to_allowance w a tok own spd)
  = [ECallName tok; ECallSymbol tok; ECallDecimals tok;
     ECallAllowance tok own spd (block a)].
Proof.
  unfold up_to_allowance. rewrite !filter_app.
  rewrite filter_map_EPrint by reflexivity. reflexivity.
Qed.

Lemma contract_calls_fetched (w : world) (a : args) (tok own spd : string)
  (raw : Z) (human : string) :
  filter is_contract_call (fetched_trace w a tok own spd raw human)
  = [ECallName tok; ECallSymbol tok; ECallDecimals tok;
     ECallAllowance tok own spd (block a)].
Proof.
  unfold fetched_trace. cbv zeta. rewrite !filter_app.
  rewrite !filter_map_EPrint by reflexivity.
  destruct (json a); reflexivity.
Qed.

Lemma normalized_fixed (x c : string) :
  to_checksum_or_die x = inr c -> to_checksum_or_die c = inr c.
Proof.
  intros H. destruct (to_checksum_or_die_inr keccak_nibble x c H) as [Hv Hc].
  destruct (checksummed_fixed keccak_nibble x c Hv Hc) as [Hv' Hf].
  unfold App.to_checksum_or_die. rewrite Hv', Hf. reflexivity.
Qed.

(** X4. The calls to the token contract.  A run makes none unless the RPC
    URL and the three addresses are valid and the connection probe
    succeeded; then it makes exactly four, in the order [name], [symbol],
    [decimals], [allowance], each once.  They carry the checksummed forms
    of [--token], [--owner] and [--spender], which are themselves valid and
    normalized, and the block tag exactly as given. *)
Theorem contract_calls_of_run (w : world) (a : args) :
  let calls := filter is_contract_call (fst (run w (main a))) in
  (calls = [] /\ (valid_inputs a = false \/ connected w = false))
  \/ (exists tok own spd,
        valid_inputs a = true /\ connected w = true
        /\ to_checksum_or_die (token a) = inr tok
        /\ to_checksum_or_die (owner a) = inr own
        /\ to_checksum_or_die (spender a) = inr spd
        /\ calls = [ECallName tok; ECallSymbol tok; ECallDecimals tok;
                    ECallAllowance tok own spd (block a)]
        /\ forall e x, In e calls -> In x (addresses_of e) ->
                       to_checksum_or_die x = inr x).
Proof.
  cbv zeta.
  assert (Hfix : forall tok own spd,
             to_checksum_or_die (token a) = inr tok ->
             to_checksum_or_die (owner a) = inr own ->
             to_checksum_or_die (spender a) = inr spd ->
             forall e x,
               In e [ECallName tok; ECallSymbol tok; ECallDecimals tok;
                     ECallAllowance tok own spd (block a)] ->
               In x (addresses_of e) -> to_checksum_or_die x = inr x).
  { intros tok own spd Et Eo Es e x He Hx.
    pose proof (normalized_fixed _ _ Et). pose proof (normalized_fixed _ _ Eo).
    pose proof (normalized_fixed _ _ Es).
    cbn [In] in He.
    destruct He as [<- | [<- | [<- | [<- | []]]]]; cbn [addresses_of In] in Hx;
      intuition (subst; assumption). }
  pose proof (run_has_shape keccak_nibble w a) as S.
  set (r := run w (main a)) in *. clearbody r.
  destruct S as [ Hr | x Hr Hx | Hv Hc | tok own spd msg Hv Hc Et Eo Es Hm
                | tok own spd raw err Hv Hc Et Eo Es Ha Hh
                | tok own spd raw human Hv Hc Et Eo Es Ha Hh ]; cbn [fst].
  - left. split; [ reflexivity | ]. left.
    unfold Shown.valid_inputs. rewrite Hr. reflexivity.
  - left. split; [ reflexivity | ]. left.
    unfold Shown.valid_inputs. rewrite Hr. cbn [andb find] in *.
    destruct (is_address (token a)); [ | reflexivity ].
    destruct (is_address (owner a)); [ | reflexivity ].
    destruct (is_address (spender a)); [ | reflexivity ].
    discriminate.
  - left. split; [ reflexivity | ]. right. assumption.
  - right. exists tok, own, spd. rewrite filter_app, contract_calls_up_to.
    cbn [filter is_contract_call app].
    repeat (split; [ assumption || reflexivity | ]). apply Hfix; assumption.
  - right. exists tok, own, spd. rewrite contract_calls_up_to.
    repeat (split; [ assumption || reflexivity | ]). apply Hfix; assumption.
  - right. exists tok, own, spd. rewrite contract_calls_fetched.
    repeat (split; [ assumption || reflexivity | ]). apply Hfix; assumption.
Qed.

(** X5. With a valid RPC URL and an invalid address, the run stops at the
    first invalid one in the order token, owner, spender: it prints the
    error naming that text and exits with 1, with no call to the network. *)
Theorem first_invalid_address_reported (w : world) (a : args) :
  starts_http (rpc a) = true ->
  valid_inputs a = false ->
  exists x,
    find (fun x => negb (is_address x)) [token a; owner a; spender a] = Some x
    /\ run w (main a)
       = ([EClock; EPrint (LAddressError (InvalidEthereumAddress x))], Exit 1).
Proof.
  intros Hr Hv.
  pose proof (run_has_shape keccak_nibble w a) as S.
  inversion S; try congruence.
  exists x. auto.
Qed.

(** X6. When the connection probe fails, the probe, made with the URL and
    the timeout as given, is the only call: the run prints the connection
    error and exits with 1. *)
Theorem connection_failure_run (w : world) (a : args) :
  valid_inputs a = true ->
  connected w = false ->
  run w (main a)
  = ([EClock; EIsConnected (rpc a) (timeout a); EPrint LConnectionFailed], Exit 1).
Proof.
  intros Hv Hc.
  pose proof (run_has_shape keccak_nibble w a) as S.
  inversion S; try congruence.
  - unfold Shown.valid_inputs in Hv. rewrite H0 in Hv. discriminate.
  - exfalso. unfold Shown.valid_inputs in Hv. cbn [find] in H1.
    apply andb_prop in Hv as [Hv Hs]. apply andb_prop in Hv as [Hv Ho].
    apply andb_prop in Hv as [_ Ht]. rewrite Ht, Ho, Hs in H1. discriminate.
Qed.

Lemma printed_up_to (w : world) (a : args) (tok own spd : string) :
  printed (up_to_allowance w a tok own spd)
  = header a (world_meta w) (chain_id w 0) tok own spd.
Proof.
  unfold up_to_allowance. rewrite !printed_app, printed_map_EPrint.
  unfold header. destruct (chain_id w 0); reflexivity.
Qed.

Lemma header_no_json (a : args) (m : meta) (chain : option Z) (tok own spd : string) :
  filter is_json (header a m chain tok own spd) = [].
Proof. unfold header. destruct chain; reflexivity. Qed.

Lemma allowance_lines_no_json (a : args) (m : meta) (raw : Z) (human : string) :
  filter is_json (allowance_lines a m raw human) = [].
Proof.
  unfold allowance_lines, comparison_lines.
  destruct (raw =? 0); (destruct (expected a) as [text | ];
    [ destruct (expected_to_raw text (decimals m)) | ]); reflexivity.
Qed.

(** X7. The JSON document.  With [--json] and a fetched allowance, the
    document is the last line printed and the only JSON line; in every
    other run (no [--json], an input or connection error, a failed
    allowance call) no JSON line is printed at all. *)
Theorem json_document_only_at_end (w : world) (a : args) :
  allowance_in_range w ->
  let lines := printed (fst (run w (main a))) in
  if json a && valid_inputs a && connected w
     && match allowance w with AllowanceOk _ => true | _ => false end
  then exists before out,
         lines = (before ++ [LJson out])%list /\ filter is_json before = []
  else filter is_json lines = [].
Proof.
  intros Hrange. cbv zeta.
  pose proof (run_has_shape keccak_nibble w a) as S.
  set (r := run w (main a)) in *. clearbody r.
  destruct S as [ Hr | x Hr Hx | Hv Hc | tok own spd msg Hv Hc Et Eo Es Hm
                | tok own spd raw err Hv Hc Et Eo Es Ha Hh
                | tok own spd raw human Hv Hc Et Eo Es Ha Hh ]; cbn [fst].
  - unfold Shown.valid_inputs. rewrite Hr. cbn [andb].
    rewrite andb_false_r. reflexivity.
  - replace (valid_inputs a) with false.
    + rewrite andb_false_r. reflexivity.
    + unfold Shown.valid_inputs. cbn [find] in Hx. rewrite Hr. cbn [andb].
      destruct (is_address (token a)); [ | reflexivity ].
      destruct (is_address (owner a)); [ | reflexivity ].
      destruct (is_address (spender a)); [ | reflexivity ].
      discriminate.
  - rewrite Hc, andb_false_r. reflexivity.
  - replace (match allowance w with AllowanceOk _ => true | _ => false end)
      with false by (destruct Hm as [[e [-> _]] | [e [-> _]]]; reflexivity).
    rewrite andb_false_r, printed_app, printed_up_to, filter_app, header_no_json.
    reflexivity.
  - exfalso. unfold allowance_in_range in Hrange. rewrite Ha in Hrange.
    destruct (human_amount_total (Z.of_N raw) (decimals (world_meta w))) as [h Eh];
      [ lia | congruence ].
  - rewrite Hv, Hc, Ha, !andb_true_r, printed_fetched.
    destruct (json a).
    + exists (header a (world_meta w) (chain_id w 0) tok own spd
              ++ allowance_lines a (world_meta w) (Z.of_N raw) human
              ++ [LCompleted (elapsed_of w)])%list.
      eexists. split.
      * rewrite <- !app_assoc. reflexivity.
      * rewrite !filter_app, header_no_json, allowance_lines_no_json. reflexivity.
    + rewrite !filter_app, header_no_json, allowance_lines_no_json. reflexivity.
Qed.

(** The outcome of a run, from what decides it. *)
Lemma outcome_of_run (w : world) (a : args) :
  snd (run w (main a))
  = if negb (valid_inputs a) || negb (connected w) then Exit 1
    else match allowance w with
         | AllowanceOk raw =>
             match human_amount (Z.of_N raw) (decimals (world_meta w)) with
             | inl e => Uncaught e
             | inr _ => Exit (match verdict a (world_meta w) (Z.of_N raw) with
                              | Some false => 2
                              | _ => 0
                              end)
             end
         | _ => Exit 2
         end.
Proof.
  pose proof (run_has_shape keccak_nibble w a) as S.
  set (r := run w (main a)) in *. clearbody r.
  destruct S as [ Hr | x Hr Hx | Hv Hc | tok own spd msg Hv Hc Et Eo Es Hm
                | tok own spd raw err Hv Hc Et Eo Es Ha Hh
                | tok own spd raw human Hv Hc Et Eo Es Ha Hh ]; cbn [snd].
  - unfold Shown.valid_inputs. rewrite Hr. reflexivity.
  - replace (valid_inputs a) with false; [ reflexivity | ].
    unfold Shown.valid_inputs. cbn [find] in Hx. rewrite Hr. cbn [andb].
    destruct (is_address (token a)); [ | reflexivity ].
    destruct (is_address (owner a)); [ | reflexivity ].
    destruct (is_address (spender a)); [ | reflexivity ].
    discriminate.
  - rewrite Hv, Hc. reflexivity.
  - rewrite Hv, Hc. destruct Hm as [[e [-> _]] | [e [-> _]]]; reflexivity.
  - rewrite Hv, Hc, Ha, Hh. reflexivity.
  - rewrite Hv, Hc, Ha, Hh. reflexivity.
Qed.

(** X8. The outcome of a run does not depend on the token's name or
    symbol, on the chain id or on the clock: two worlds with the same
    connection probe, [decimals] answer and [allowance] answer end the same
    way. *)
Theorem outcome_ignores_cosmetics (w w' : world) (a : args) :
  connected w = connected w' ->
  decimals_reply w = decimals_reply w' ->
  allowance w = allowance w' ->
  snd (run w (main a)) = snd (run w' (main a)).
Proof.
  intros Hc Hd Ha. rewrite !outcome_of_run.
  unfold verdict, world_meta. cbn [decimals]. rewrite Hc, Hd, Ha. reflexivity.
Qed.

(** X9. Once [parse_args] has returned the namespace, the exit status of
    [main] can be read off the [print] calls it made: it is 1 exactly when
    one of the three input and connection error prints ran (lines 81, 90
    and 95), and 2 exactly when the MISMATCH verdict (line 136) or the
    allowance error (line 116) was printed.  The lines are taken as the
    calls that printed them, not as text found in the output, and the exits
    of [argparse] itself come before any of them. *)
Theorem exit_status_matches_output (w : world) (a : args) :
  allowance_in_range w ->
  let lines := printed (fst (run w (main a))) in
  let status := snd (run w (main a)) in
  (status = Exit 1 <-> exists l, is_config_error l = true /\ In l lines)
  /\ (status = Exit 2
      <-> In (LVerdict false) lines \/ exists msg, In (LAllowanceError msg) lines)
  /\ (status = Exit 0 \/ status = Exit 1 \/ status = Exit 2).
Proof.
  intros Hrange. cbv zeta.
  pose proof (run_has_shape keccak_nibble w a) as S.
  set (r := run w (main a)) in *. clearbody r.
  destruct S as [ Hr | x Hr Hx | Hv Hc | tok own spd msg Hv Hc Et Eo Es Hm
                | tok own spd raw err Hv Hc Et Eo Es Ha Hh
                | tok own spd raw human Hv Hc Et Eo Es Ha Hh ]; cbn [fst snd].
  - split; [ | split ]; [ | | auto ].
    + split; [ intros _; exists LInvalidRpc; cbn; auto | reflexivity ].
    + split; [ discriminate | ]. cbn. intros [H | [msg H]]; intuition discriminate.
  - split; [ | split ]; [ | | auto ].
    + split; [ intros _; eexists; cbn; split; [ | left; reflexivity ]; reflexivity
             | reflexivity ].
    + split; [ discriminate | ]. cbn. intros [H | [msg H]]; intuition discriminate.
  - split; [ | split ]; [ | | auto ].
    + split; [ intros _; exists LConnectionFailed; cbn; auto | reflexivity ].
    + split; [ discriminate | ]. cbn. intros [H | [msg H]]; intuition discriminate.
  - rewrite printed_app, printed_up_to. cbn [printed flat_map app].
    split; [ | split ]; [ | | auto ].
    + split; [ discriminate | ]. intros [l [Hl Hin]]. exfalso.
      apply in_app_or in Hin. unfold header in Hin.
      destruct (chain_id w 0); cbn in Hin;
        intuition (subst; discriminate).
    + split; [ | reflexivity ]. intros _. right. exists msg.
      apply in_or_app. right. left. reflexivity.
  - exfalso. unfold allowance_in_range in Hrange. rewrite Ha in Hrange.
    destruct (human_amount_total (Z.of_N raw) (decimals (world_meta w))) as [h Eh];
      [ lia | congruence ].
  - rewrite printed_fetched.
    unfold verdict, header, allowance_lines, comparison_lines.
    split; [ | split ].
    + split.
      * destruct (expected a) as [text | ]; [ | discriminate ].
        destruct (expected_to_raw text (decimals (world_meta w))) as [e | er];
          [ discriminate | ].
        destruct (er =? Z.of_N raw); discriminate.
      * intros [l [Hl Hin]]. exfalso.
        destruct (chain_id w 0); destruct (Z.of_N raw =? 0); destruct (json a);
          (destruct (expected a) as [text | ];
           [ destruct (expected_to_raw text (decimals (world_meta w))) | ]);
          cbn in Hin; intuition (subst; discriminate).
    + split.
      * destruct (expected a) as [text | ]; [ | discriminate ].
        destruct (expected_to_raw text (decimals (world_meta w))) as [e | er];
          [ discriminate | ].
        destruct (er =? Z.of_N raw); [ discriminate | ].
        intros _. left.
        apply in_or_app. right. apply in_or_app. left.
        apply in_or_app. right. apply in_or_app. right. right. left. reflexivity.
      * intros [Hin | [msg Hin]].
        -- destruct (chain_id w 0); destruct (Z.of_N raw =? 0); destruct (json a);
             (destruct (expected a) as [text | ];
              [ destruct (expected_to_raw text (decimals (world_meta w))) as [e | er];
                [ | destruct (er =? Z.of_N raw) ] | ]);
             cbn in Hin; try reflexivity; exfalso; intuition discriminate.
        -- exfalso.
           destruct (chain_id w 0); destruct (Z.of_N raw =? 0); destruct (json a);
             (destruct (expected a) as [text | ];
              [ destruct (expected_to_raw text (decimals (world_meta w))) | ]);
             cbn in Hin; intuition discriminate.
    + destruct (expected a) as [text | ]; [ | auto ].
      destruct (expected_to_raw text (decimals (world_meta w))) as [e | er]; [ auto | ].
      destruct (er =? Z.of_N raw); auto.
Qed.

End MainExtras.

(** ** Arithmetic of scaled bounds *)

(** Cancelling positive factors in an equation of errors. *)
Lemma error_rescaled (A B D F : Z) :
  0 < D -> 0 < F -> A * D = B * F -> 2 * A < F -> 2 * B < D.
Proof.
  intros HD HF E HA.
  apply (Z.mul_lt_mono_pos_r F); [ exact HF | ].
  replace (2 * B * F) with (2 * A * D) by (rewrite <- !Z.mul_assoc, E; reflexivity).
  rewrite (Z.mul_comm D F). apply Z.mul_lt_mono_pos_r; assumption.
Qed.

(** A number within half a unit of [raw * D], with [raw] positive, is more
    than half of [D], *)
Lemma near_multiple_lower (N raw D : Z) :
  0 < raw -> 0 < D -> 2 * Z.abs (N - raw * D) < D -> D < 2 * N.
Proof.
  intros Hr HD H.
  assert (D * 1 <= D * raw) by (apply Z.mul_le_mono_nonneg_l; lia).
  lia.
Qed.

(** and below [c * D] for any [c] above [raw]. *)
Lemma near_multiple_upper (N raw D c : Z) :
  raw < c -> 0 < D -> 2 * Z.abs (N - raw * D) < D -> N < c * D.
Proof.
  intros Hr HD H.
  assert ((raw + 1) * D <= c * D) by (apply Z.mul_le_mono_nonneg_r; lia).
  lia.
Qed.

(** The two contradictions that bound a binary exponent. *)
Lemma exponent_not_below (N D P c : Z) :
  0 < N -> c <= P -> 2 * D <= c * N -> N * P < 2 * D -> False.
Proof.
  intros HN HP H1 H2.
  assert (c * N <= P * N) by (apply Z.mul_le_mono_nonneg_r; lia).
  lia.
Qed.

Lemma exponent_not_above (N D P c : Z) :
  0 < D -> c <= P -> N < c * D -> D * P <= N -> False.
Proof.
  intros HD HP H1 H2.
  assert (D * c <= D * P) by (apply Z.mul_le_mono_nonneg_l; lia).
  lia.
Qed.

(** Cancelling a positive factor in a two-sided bound. *)
Lemma bounds_cancel (D x lo hi : Z) :
  0 < D -> D * lo <= x * D < D * hi -> lo <= x < hi.
Proof.
  intros HD [H1 H2]. split.
  - apply (Z.mul_le_mono_pos_l _ _ D); lia.
  - apply (Z.mul_lt_mono_pos_l D); lia.
Qed.

(** When [raw / D], scaled by [E], has reached [c] although [raw] is below
    [c], the scale [E] exceeds [D]. *)
Lemma scale_exceeds (raw D E c : Z) :
  0 < raw < c -> 0 < E -> D * c <= raw * E -> D < E.
Proof.
  intros Hr HE H.
  destruct (Z_lt_ge_dec D E) as [ | Hge ]; [ assumption | exfalso ].
  assert (raw * E <= (c - 1) * E) by (apply Z.mul_le_mono_nonneg_r; lia).
  assert (E * c <= D * c) by (apply Z.mul_le_mono_nonneg_r; lia).
  rewrite Z.mul_sub_distr_r in *. lia.
Qed.

(** A significand rounded up to twice [c], at the scale [2 * F]: at half
    the scale the error is still below half a unit. *)
Lemma halved_close (raw D F c : Z) :
  D < 2 * F ->
  2 * Z.abs (2 * c * D - raw * (2 * F)) <= D ->
  2 * Z.abs (c * D - raw * F) < F.
Proof.
  intros HD H.
  replace (2 * c * D - raw * (2 * F)) with (2 * (c * D - raw * F)) in H by ring.
  rewrite Z.abs_mul in H. change (Z.abs 2) with 2 in H. lia.
Qed.

Lemma halved_error (N D F c : Z) :
  2 * Z.abs (2 * c * D - N * (2 * F)) <= D ->
  2 * Z.abs (c * D - N * F) <= D.
Proof.
  intros H.
  replace (2 * c * D - N * (2 * F)) with (2 * (c * D - N * F)) in H by ring.
  rewrite Z.abs_mul in H. change (Z.abs 2) with 2 in H.
  pose proof (Z.abs_nonneg (c * D - N * F)). lia.
Qed.

(** ** Rounding *)

Lemma rne_div_cases (a b : Z) :
  0 < b ->
  exists q r, a = b * q + r /\ 0 <= r < b
              /\ (PyFloat.rne_div a b = q /\ 2 * r <= b
                  \/ PyFloat.rne_div a b = q + 1 /\ b <= 2 * r).
Proof.
  intros Hb. exists (a / b), (a mod b).
  pose proof (Z.div_mod a b ltac:(lia)) as Hdm.
  pose proof (Z.mod_pos_bound a b Hb) as Hr.
  split; [ exact Hdm | ]. split; [ exact Hr | ].
  unfold PyFloat.rne_div.
  destruct (Z.compare_spec (2 * (a mod b)) b).
  - destruct (Z.even (a / b)); [ left | right ]; lia.
  - left. lia.
  - right. lia.
Qed.

Lemma rne_div_nonneg (a b : Z) : 0 <= a -> 0 < b -> 0 <= PyFloat.rne_div a b.
Proof.
  intros Ha Hb. destruct (rne_div_cases a b Hb) as [q [r [E [Hr H]]]].
  assert (0 <= q) by nia. lia.
Qed.

(** The rounded quotient is within half a unit of the exact one. *)
Lemma rne_div_error (a b : Z) :
  0 < b -> 2 * Z.abs (PyFloat.rne_div a b * b - a) <= b.
Proof.
  intros Hb. destruct (rne_div_cases a b Hb) as [q [r [E [Hr [[-> H] | [-> H]]]]]]; nia.
Qed.

(** An integer closer than half a unit to the quotient is the rounded one. *)
Lemma rne_div_unique (a b n : Z) :
  0 < b -> 2 * Z.abs (a - n * b) < b -> PyFloat.rne_div a b = n.
Proof.
  intros Hb Hn. destruct (rne_div_cases a b Hb) as [q [r [E [Hr [[-> H] | [-> H]]]]]]; nia.
Qed.

(** [ilog2_ratio n d] is the binary exponent of [n / d]. *)
Lemma ilog2_ratio_spec (n d : Z) :
  0 < n -> 0 < d ->
  let k := PyFloat.ilog2_ratio n d in
  d * 2 ^ Z.max 0 k <= n * 2 ^ Z.max 0 (- k)
  /\ n * 2 ^ Z.max 0 (- k) < 2 * (d * 2 ^ Z.max 0 k).
Proof.
  intros Hn Hd. cbv zeta. unfold PyFloat.ilog2_ratio.
  pose proof (Z.log2_spec n Hn) as [Ln1 Ln2].
  pose proof (Z.log2_spec d Hd) as [Ld1 Ld2].
  pose proof (Z.log2_nonneg n) as Ln0. pose proof (Z.log2_nonneg d) as Ld0.
  set (ln := Z.log2 n) in *. set (ld := Z.log2 d) in *.
  rewrite <- !Z.add_1_r in *.
  rewrite Z.pow_add_r in Ln2, Ld2 by lia. change (2 ^ 1) with 2 in *.
  set (k0 := ln - ld).
  (* the quotient scaled by [2^k0] lies strictly between 1/2 and 2 *)
  assert (H0 : d * 2 ^ Z.max 0 k0 < 2 * (n * 2 ^ Z.max 0 (- k0))
               /\ n * 2 ^ Z.max 0 (- k0) < 2 * (d * 2 ^ Z.max 0 k0)).
  { destruct (Z_le_gt_dec 0 k0) as [Hk | Hk].
    - rewrite (Z.max_r 0 k0), (Z.max_l 0 (- k0)) by lia. change (2 ^ 0) with 1.
      assert (Ep : 2 ^ ln = 2 ^ ld * 2 ^ k0)
        by (rewrite <- Z.pow_add_r by lia; f_equal; lia).
      assert (0 < 2 ^ k0) by (apply Z.pow_pos_nonneg; lia).
      nia.
    - rewrite (Z.max_l 0 k0), (Z.max_r 0 (- k0)) by lia. change (2 ^ 0) with 1.
      assert (Ep : 2 ^ ld = 2 ^ ln * 2 ^ (- k0))
        by (rewrite <- Z.pow_add_r by lia; f_equal; lia).
      assert (0 < 2 ^ (- k0)) by (apply Z.pow_pos_nonneg; lia).
      nia. }
  destruct H0 as [Hlo Hhi].
  destruct (Z.ltb_spec (n * 2 ^ Z.max 0 (- k0)) (d * 2 ^ Z.max 0 k0)) as [Hlt | Hge].
  - destruct (Z_le_gt_dec 1 k0) as [Hk | Hk].
    + rewrite (Z.max_r 0 (k0 - 1)), (Z.max_l 0 (- (k0 - 1))) by lia.
      rewrite (Z.max_r 0 k0), (Z.max_l 0 (- k0)) in Hlo, Hlt by lia.
      change (2 ^ 0) with 1 in *.
      assert (Ep : 2 ^ k0 = 2 * 2 ^ (k0 - 1))
        by (rewrite <- (Z.pow_succ_r 2 (k0 - 1)) by lia; f_equal; lia).
      nia.
    + rewrite (Z.max_l 0 (k0 - 1)), (Z.max_r 0 (- (k0 - 1))) by lia.
      rewrite (Z.max_l 0 k0), (Z.max_r 0 (- k0)) in Hlo, Hlt by lia.
      change (2 ^ 0) with 1 in *.
      assert (Ep : 2 ^ (- (k0 - 1)) = 2 * 2 ^ (- k0))
        by (rewrite <- (Z.pow_succ_r 2 (- k0)) by lia; f_equal; lia).
      nia.
  - split; [ exact Hge | exact Hhi ].
Qed.

(** [fl_round] on a quotient from [2^-1022] up to [2^52]: the result is
    normal with an exponent of at most 0, its significand the rounded quotient
    scaled to 53 bits. *)
Lemma fl_round_normal (s : bool) (n d : Z) :
  0 < n -> 0 < d ->
  let k := PyFloat.ilog2_ratio n d in
  -1022 <= k <= 51 ->
  let m := PyFloat.rne_div (n * 2 ^ (52 - k)) d in
  d * 2 ^ 52 <= n * 2 ^ (52 - k) < d * 2 ^ 53
  /\ 2 ^ 52 <= m <= 2 ^ 53
  /\ PyFloat.fl_round s n d
     = if m =? 2 ^ 53 then S754_finite s (2 ^ 52)%positive (k - 51)
       else S754_finite s (Z.to_pos m) (k - 52).
Proof.
  intros Hn Hd k Hk m.
  pose proof (ilog2_ratio_spec n d Hn Hd) as Hspec. cbv zeta in Hspec.
  fold k in Hspec. destruct Hspec as [Hlo Hhi].
  assert (Hscale : d * 2 ^ 52 <= n * 2 ^ (52 - k) < d * 2 ^ 53).
  { destruct (Z_le_gt_dec 0 k) as [H0 | H0].
    - rewrite (Z.max_r 0 k), (Z.max_l 0 (- k)) in Hlo, Hhi by lia.
      change (2 ^ 0) with 1 in *.
      assert (Ep : 2 ^ 52 = 2 ^ k * 2 ^ (52 - k))
        by (rewrite <- Z.pow_add_r by lia; f_equal; lia).
      assert (0 < 2 ^ (52 - k)) by (apply Z.pow_pos_nonneg; lia).
      change (2 ^ 53) with (2 * 2 ^ 52). rewrite Ep. nia.
    - rewrite (Z.max_l 0 k), (Z.max_r 0 (- k)) in Hlo, Hhi by lia.
      change (2 ^ 0) with 1 in *.
      assert (Ep : 2 ^ (52 - k) = 2 ^ 52 * 2 ^ (- k))
        by (rewrite <- Z.pow_add_r by lia; f_equal; lia).
      change (2 ^ 53) with (2 * 2 ^ 52). rewrite Ep. nia. }
  assert (Hm : 2 ^ 52 <= m <= 2 ^ 53).
  { pose proof (rne_div_error (n * 2 ^ (52 - k)) d Hd) as He. fold m in He.
    change (2 ^ 52) with 4503599627370496 in *.
    change (2 ^ 53) with 9007199254740992 in *. nia. }
  split; [ exact Hscale | ]. split; [ exact Hm | ].
  unfold PyFloat.fl_round.
  replace (n <=? 0) with false by (symmetry; apply Z.leb_gt; exact Hn).
  fold k. unfold PyFloat.prec, PyFloat.emin, PyFloat.emax.
  change (53 - 1) with 52.
  rewrite (Z.max_l (k - 52) (-1074)) by lia.
  rewrite (Z.max_r 0 (- (k - 52))), (Z.max_l 0 (k - 52)) by lia.
  replace (- (k - 52)) with (52 - k) by lia.
  change (2 ^ 0) with 1. rewrite Z.mul_1_r. fold m.
  destruct (Z.eqb_spec m (2 ^ 53)) as [E | E].
  - change (2 ^ 52) with (Zpos (2 ^ 52)).
    replace (k - 52 + 1 <=? 1024 - 53) with true by (symmetry; apply Z.leb_le; lia).
    f_equal. lia.
  - replace (k - 52 <=? 1024 - 53) with true by (symmetry; apply Z.leb_le; lia).
    destruct m as [ | p | p ]; try lia. reflexivity.
Qed.

(** ** [human_amount] *)

Lemma pow10_bounds (d : Z) : 1 <= d <= 18 -> 10 <= 10 ^ d <= 10 ^ 18.
Proof.
  intros H. split.
  - change 10 with (10 ^ 1) at 1. apply Z.pow_le_mono_r; lia.
  - apply Z.pow_le_mono_r; lia.
Qed.

(** Below [2^52] the quotient rounds to a float whose decimal expansion to
    [d] places is the raw amount again. *)
Lemma human_amount_fixed_point (raw d : Z) :
  0 <= raw < 2 ^ 52 ->
  1 <= d <= 18 ->
  App.human_amount raw d = inr (PyFloat.fixed_point raw (Z.to_nat d)).
Proof.
  intros Hraw Hd.
  pose proof (pow10_bounds d Hd) as HD.
  unfold App.human_amount, PyFloat.true_div.
  replace (d <=? 0) with false by (symmetry; apply Z.leb_gt; lia).
  replace (10 ^ d =? 0) with false by (symmetry; apply Z.eqb_neq; lia).
  replace (raw <? 0) with false by (symmetry; apply Z.ltb_ge; lia).
  replace (10 ^ d <? 0) with false by (symmetry; apply Z.ltb_ge; lia).
  rewrite (Z.abs_eq raw), (Z.abs_eq (10 ^ d)) by lia. cbn [xorb].
  rewrite (Z.min_l d 18) by lia.
  destruct (Z.eq_dec raw 0) as [-> | Hnz]; [ reflexivity | ].
  set (D := 10 ^ d) in *.
  assert (Hn : 0 < raw) by lia. assert (HD0 : 0 < D) by lia.
  pose proof (ilog2_ratio_spec raw D Hn HD0) as Hspec. cbv zeta in Hspec.
  set (k := PyFloat.ilog2_ratio raw D) in *. destruct Hspec as [Hlo Hhi].
  assert (Hk : -61 <= k <= 48).
  { split.
    - destruct (Z_le_gt_dec (-61) k) as [ | Hc ]; [ assumption | exfalso ].
      rewrite (Z.max_l 0 k), (Z.max_r 0 (- k)) in Hhi by lia.
      change (2 ^ 0) with 1 in Hhi.
      assert (2 ^ 62 <= 2 ^ (- k)) by (apply Z.pow_le_mono_r; lia).
      change (2 ^ 62) with 4611686018427387904 in *.
      change (10 ^ 18) with 1000000000000000000 in *. nia.
    - destruct (Z_le_gt_dec k 48) as [ | Hc ]; [ assumption | exfalso ].
      rewrite (Z.max_r 0 k), (Z.max_l 0 (- k)) in Hlo by lia.
      change (2 ^ 0) with 1 in Hlo.
      assert (2 ^ 49 <= 2 ^ k) by (apply Z.pow_le_mono_r; lia).
      change (2 ^ 49) with 562949953421312 in *.
      change (2 ^ 52) with 4503599627370496 in *. nia. }
  destruct (fl_round_normal false raw D Hn HD0 ltac:(fold k; lia))
    as [Hscale [Hm Hfl]].
  fold k in Hscale, Hm, Hfl.
  set (E := 2 ^ (52 - k)) in *.
  set (m := PyFloat.rne_div (raw * E) D) in *.
  pose proof (rne_div_error (raw * E) D HD0) as Herr. fold m in Herr.
  assert (HE : 0 < E) by (apply Z.pow_pos_nonneg; lia).
  assert (HDE : D < E).
  { apply (scale_exceeds raw D E (2 ^ 52)); [ | exact HE | apply Hscale ].
    split; [ exact Hn | apply Hraw ]. }
  rewrite Hfl.
  assert (HDpow : 10 ^ Z.of_nat (Z.to_nat d) = D)
    by (rewrite Z2Nat.id by lia; reflexivity).
  destruct (Z.eqb_spec m (2 ^ 53)) as [Em | Em].
  - (* the significand rounded up to [2^53] *)
    unfold PyFloat.format_f, PyFloat.num_of, PyFloat.den_of.
    rewrite (Z.max_l 0 (k - 51)), (Z.max_r 0 (- (k - 51))) by lia.
    rewrite HDpow. change (2 ^ 0) with 1. rewrite Z.mul_1_r.
    replace (- (k - 51)) with (51 - k) by lia.
    assert (E2 : E = 2 * 2 ^ (51 - k)).
    { unfold E. rewrite <- (Z.pow_succ_r 2 (51 - k)) by lia. f_equal. lia. }
    set (F := 2 ^ (51 - k)) in *.
    assert (HF : 0 < F) by lia.
    rewrite (rne_div_unique (Zpos (2 ^ 52) * D) F raw HF); [ reflexivity | ].
    apply (halved_close raw D F (Zpos (2 ^ 52))).
    + rewrite <- E2. exact HDE.
    + rewrite <- E2. change (2 * Zpos (2 ^ 52)) with (2 ^ 53).
      rewrite <- Em. exact Herr.
  - unfold PyFloat.format_f, PyFloat.num_of, PyFloat.den_of.
    rewrite (Z.max_l 0 (k - 52)), (Z.max_r 0 (- (k - 52))) by lia.
    rewrite HDpow. change (2 ^ 0) with 1. rewrite Z.mul_1_r.
    replace (- (k - 52)) with (52 - k) by lia. fold E.
    rewrite Z2Pos.id by (change (2 ^ 52) with 4503599627370496 in *; lia).
    rewrite (rne_div_unique (m * D) E raw HE); [ reflexivity | ].
    eapply Z.le_lt_trans; [ exact Herr | exact HDE ].
Qed.

(** X10. Below [2^52] base units and for 1 to 18 decimals, the human
    amount is exact: the digits of the raw allowance, padded with zeros,
    with the point [decimals] places from the right.  The division and the
    formatting go through floating point without losing anything there. *)
Theorem human_amount_exact (raw d : Z) :
  0 <= raw < 2 ^ 52 ->
  1 <= d <= 18 ->
  App.human_amount raw d = inr (PyFloat.fixed_point raw (Z.to_nat d)).
Proof. intros Hraw Hd. apply human_amount_fixed_point; assumption. Qed.

Lemma digit_char_is_digit (d : Z) :
  0 <= d <= 9 -> PyStr.is_digit (PyStr.digit_char d) = true.
Proof.
  intros H.
  assert (C : d = 0 \/ d = 1 \/ d = 2 \/ d = 3 \/ d = 4 \/ d = 5 \/ d = 6
              \/ d = 7 \/ d = 8 \/ d = 9) by lia.
  repeat (destruct C as [-> | C]; [ reflexivity | ]). subst. reflexivity.
Qed.

Lemma digits_rev_range (fuel : nat) (n : Z) :
  0 <= n -> Forall (fun d => 0 <= d <= 9) (PyStr.digits_rev fuel n).
Proof.
  revert n. induction fuel as [ | fuel IH ]; intros n Hn; cbn [PyStr.digits_rev].
  - constructor.
  - destruct (Z.ltb_spec n 10).
    + constructor; [ lia | constructor ].
    + constructor.
      * pose proof (Z.mod_pos_bound n 10 ltac:(lia)). lia.
      * apply IH. apply Z.div_pos; lia.
Qed.

Lemma digits_of_range (n : Z) :
  0 <= n -> Forall (fun d => 0 <= d <= 9) (PyStr.digits_of n).
Proof.
  intros Hn. unfold PyStr.digits_of. apply Forall_rev. apply digits_rev_range. exact Hn.
Qed.

Lemma digits_of_nonempty (n : Z) : (1 <= List.length (PyStr.digits_of n))%nat.
Proof.
  unfold PyStr.digits_of. rewrite length_rev. cbn [PyStr.digits_rev].
  destruct (n <? 10); cbn [List.length]; lia.
Qed.

Lemma string_of_digits_length (ds : list Z) :
  String.length (PyStr.string_of_digits ds) = List.length ds.
Proof.
  unfold PyStr.string_of_digits. induction ds; cbn; congruence.
Qed.

Lemma string_of_digits_all_digits (ds : list Z) :
  Forall (fun d => 0 <= d <= 9) ds ->
  PyStr.all_chars PyStr.is_digit (PyStr.string_of_digits ds) = true.
Proof.
  unfold PyStr.string_of_digits.
  induction 1 as [ | d ds Hd _ IH ]; cbn [map string_of_list_ascii PyStr.all_chars].
  - reflexivity.
  - rewrite (digit_char_is_digit d Hd), IH. reflexivity.
Qed.

(** The shape of a number printed with [S n] places after the point. *)
Lemma fixed_point_shape (k : Z) (n : nat) :
  0 <= k ->
  exists ip fp,
    PyFloat.fixed_point k (S n) = ip ++ "." ++ fp
    /\ (1 <= String.length ip)%nat
    /\ String.length fp = S n
    /\ PyStr.all_chars PyStr.is_digit ip = true
    /\ PyStr.all_chars PyStr.is_digit fp = true.
Proof.
  intros Hk. unfold PyFloat.fixed_point.
  set (ds := (repeat 0 (S (S n) - List.length (PyStr.digits_of k)) ++ PyStr.digits_of k)%list).
  assert (Hlen : (S (S n) <= List.length ds)%nat).
  { unfold ds. rewrite length_app, repeat_length. lia. }
  assert (Hall : Forall (fun d => 0 <= d <= 9) ds).
  { unfold ds. apply Forall_app. split.
    - apply Forall_forall. intros x Hx. apply repeat_spec in Hx. lia.
    - apply digits_of_range. exact Hk. }
  rewrite <- (firstn_skipn (List.length ds - S n) ds) in Hall.
  apply Forall_app in Hall as [Hip Hfp].
  exists (PyStr.string_of_digits (firstn (List.length ds - S n) ds)),
         (PyStr.string_of_digits (skipn (List.length ds - S n) ds)).
  split; [ reflexivity | ].
  rewrite !string_of_digits_length, length_firstn, length_skipn.
  repeat split; try lia; apply string_of_digits_all_digits; assumption.
Qed.

Lemma fl_round_cases (s : bool) (n d : Z) :
  PyFloat.fl_round s n d = S754_zero s
  \/ PyFloat.fl_round s n d = S754_infinity s
  \/ exists p e, PyFloat.fl_round s n d = S754_finite s p e.
Proof.
  unfold PyFloat.fl_round.
  destruct (n <=? 0); [ auto | ].
  destruct (_ =? 2 ^ PyFloat.prec).
  - destruct (2 ^ (PyFloat.prec - 1)); auto.
    destruct (_ <=? _); eauto.
  - destruct (PyFloat.rne_div _ _); auto.
    destruct (_ <=? _); eauto.
Qed.

(** X11. For a [uint256] allowance and one decimal or more, [human_amount]
    never raises, and what it returns is plain fixed-point text: one digit
    or more, a point, and exactly [min(decimals, 18)] digits; no sign, no
    exponent, no [inf] or [nan]. *)
Theorem human_amount_format (raw d : Z) :
  0 <= raw < 2 ^ 256 ->
  1 <= d ->
  exists ip fp,
    App.human_amount raw d = inr (ip ++ "." ++ fp)
    /\ (1 <= String.length ip)%nat
    /\ String.length fp = Z.to_nat (Z.min d 18)
    /\ PyStr.all_chars PyStr.is_digit ip = true
    /\ PyStr.all_chars PyStr.is_digit fp = true.
Proof.
  intros Hraw Hd.
  assert (HD : 0 < 10 ^ d) by (apply Z.pow_pos_nonneg; lia).
  unfold App.human_amount, PyFloat.true_div.
  replace (d <=? 0) with false by (symmetry; apply Z.leb_gt; lia).
  replace (10 ^ d =? 0) with false by (symmetry; apply Z.eqb_neq; lia).
  replace (raw <? 0) with false by (symmetry; apply Z.ltb_ge; lia).
  replace (10 ^ d <? 0) with false by (symmetry; apply Z.ltb_ge; lia).
  rewrite (Z.abs_eq raw), (Z.abs_eq (10 ^ d)) by lia. cbn [xorb].
  destruct (Z.to_nat (Z.min d 18)) as [ | n ] eqn:En; [ lia | ].
  assert (Hshape : forall k, 0 <= k ->
            exists ip fp,
              @inr PyFloat.num_error string (PyFloat.fixed_point k (S n))
              = inr (ip ++ "." ++ fp)
              /\ (1 <= String.length ip)%nat
              /\ String.length fp = S n
              /\ PyStr.all_chars PyStr.is_digit ip = true
              /\ PyStr.all_chars PyStr.is_digit fp = true).
  { intros k Hk. destruct (fixed_point_shape k n Hk) as [ip [fp [E H]]].
    exists ip, fp. rewrite E. auto. }
  destruct (fl_round_cases false raw (10 ^ d)) as [E | [E | [p [e E]]]]; rewrite E.
  - cbn [PyFloat.format_f append]. apply Hshape. lia.
  - exfalso. apply (fl_round_finite_below false raw (10 ^ d) ltac:(lia) false E).
  - cbn [PyFloat.format_f append]. apply Hshape.
    apply rne_div_nonneg.
    + unfold PyFloat.num_of.
      assert (0 < 2 ^ Z.max 0 e) by (apply Z.pow_pos_nonneg; lia).
      assert (0 <= 10 ^ Z.of_nat (S n)) by (apply Z.pow_nonneg; lia).
      nia.
    + unfold PyFloat.den_of. apply Z.pow_pos_nonneg; lia.
Qed.

Lemma zeros_snoc (n : nat) :
  PyStr.string_of_digits (repeat 0 n ++ [0]) = FloatSign.zeros (S n).
Proof.
  unfold PyStr.string_of_digits, FloatSign.zeros.
  rewrite <- repeat_cons.
  change (0 :: repeat 0 n) with (repeat 0 (S n)).
  rewrite map_repeat. reflexivity.
Qed.

(** X12. A zero allowance is shown as ["0"] for a token without decimals
    and as ["0."] followed by [min(decimals, 18)] zeros otherwise. *)
Theorem human_amount_zero (d : Z) :
  App.human_amount 0 d
  = inr (if d <=? 0 then "0"
         else "0." ++ FloatSign.zeros (Z.to_nat (Z.min d 18))).
Proof.
  unfold App.human_amount, PyFloat.true_div.
  destruct (Z.leb_spec d 0) as [Hd | Hd]; [ reflexivity | ].
  assert (HD : 0 < 10 ^ d) by (apply Z.pow_pos_nonneg; lia).
  replace (10 ^ d =? 0) with false by (symmetry; apply Z.eqb_neq; lia).
  replace (10 ^ d <? 0) with false by (symmetry; apply Z.ltb_ge; lia).
  cbn [Z.abs Z.ltb Z.compare xorb PyFloat.fl_round Z.leb PyFloat.format_f append].
  destruct (Z.to_nat (Z.min d 18)) as [ | n ] eqn:En; [ lia | ].
  unfold PyFloat.fixed_point.
  change (PyStr.digits_of 0) with [0]. cbn [List.length Nat.sub].
  rewrite length_app, repeat_length. cbn [List.length].
  replace (S n + 1 - S n)%nat with 1%nat by lia.
  cbn [repeat app firstn skipn].
  rewrite zeros_snoc. reflexivity.
Qed.

(** ** The [--expected] amount *)

Lemma remove_char_app (c : ascii) (s t : string) :
  PyStr.remove_char c (s ++ t) = PyStr.remove_char c s ++ PyStr.remove_char c t.
Proof.
  induction s as [ | a s IH ]; cbn [append PyStr.remove_char]; [ reflexivity | ].
  destruct (Ascii.eqb a c); cbn [append]; rewrite IH; reflexivity.
Qed.

(** X13. Commas are dropped wherever they stand before the text is read as
    a number: a comma anywhere changes neither the raw amount nor the
    error.  (So ["1,5"] is read as 15, not as one and a half.) *)
Theorem expected_ignores_commas (before after : string) (decimals : Z) :
  App.expected_to_raw (before ++ "," ++ after) decimals
  = App.expected_to_raw (before ++ after) decimals.
Proof.
  unfold App.expected_to_raw.
  rewrite !remove_char_app. cbn [append PyStr.remove_char].
  rewrite Ascii.eqb_refl. reflexivity.
Qed.

Lemma float_of_int_pow10 (d : Z) :
  0 <= d ->
  forall x, PyFloat.float_of_int (10 ^ d) = inr x ->
            exists p e, x = S754_finite false p e.
Proof.
  intros Hd x. unfold PyFloat.float_of_int.
  assert (HD : 0 < 10 ^ d) by (apply Z.pow_pos_nonneg; lia).
  replace (10 ^ d <? 0) with false by (symmetry; apply Z.ltb_ge; lia).
  rewrite Z.abs_eq by lia.
  destruct (fl_round_cases false (10 ^ d) 1) as [E | [E | [p [e E]]]].
  - exfalso. unfold PyFloat.fl_round in E.
    replace (10 ^ d <=? 0) with false in E by (symmetry; apply Z.leb_gt; lia).
    pose proof (ilog2_ratio_spec (10 ^ d) 1 HD ltac:(lia)) as Hs. cbv zeta in Hs.
    set (k := PyFloat.ilog2_ratio (10 ^ d) 1) in *.
    set (e := Z.max (k - (PyFloat.prec - 1)) PyFloat.emin) in *.
    set (m := PyFloat.rne_div _ _) in E.
    assert (Hm : 0 < m).
    { unfold m.
      assert (H2 : 0 < 2 ^ Z.max 0 e) by (apply Z.pow_pos_nonneg; lia).
      assert (H3 : 0 < 2 ^ Z.max 0 (- e)) by (apply Z.pow_pos_nonneg; lia).
      pose proof (rne_div_error (10 ^ d * 2 ^ Z.max 0 (- e)) (1 * 2 ^ Z.max 0 e)
                    ltac:(lia)) as Herr.
      pose proof (rne_div_nonneg (10 ^ d * 2 ^ Z.max 0 (- e)) (1 * 2 ^ Z.max 0 e)
                    ltac:(nia) ltac:(lia)) as H0.
      destruct (Z.eq_dec (PyFloat.rne_div (10 ^ d * 2 ^ Z.max 0 (- e))
                            (1 * 2 ^ Z.max 0 e)) 0) as [Ez | ]; [ | lia ].
      exfalso. rewrite Ez in Herr.
      (* the quotient is at least [2^52], or at least 1 when [e] is [emin] *)
      assert (Hlo : 2 ^ Z.max 0 k <= 10 ^ d * 2 ^ Z.max 0 (- k)) by lia.
      assert (Hk : 0 <= k).
      { destruct (Z_le_gt_dec 0 k) as [ | Hc ]; [ assumption | exfalso ].
        destruct Hs as [_ Hhi].
        rewrite (Z.max_l 0 k), (Z.max_r 0 (- k)) in Hhi by lia.
        change (2 ^ 0) with 1 in Hhi.
        assert (2 ^ 1 <= 2 ^ (- k)) by (apply Z.pow_le_mono_r; lia).
        change (2 ^ 1) with 2 in *. nia. }
      rewrite (Z.max_r 0 k), (Z.max_l 0 (- k)) in Hlo by lia.
      change (2 ^ 0) with 1 in Hlo.
      unfold PyFloat.prec, PyFloat.emin in e. change (53 - 1) with 52 in e.
      destruct (Z_le_gt_dec 0 e) as [He | He].
      - rewrite (Z.max_r 0 e), (Z.max_l 0 (- e)) in Herr by lia.
        change (2 ^ 0) with 1 in Herr.
        assert (2 ^ e <= 2 ^ k) by (apply Z.pow_le_mono_r; lia).
        assert (0 < 2 ^ e) by (apply Z.pow_pos_nonneg; lia).
        nia.
      - rewrite (Z.max_l 0 e), (Z.max_r 0 (- e)) in Herr by lia.
        change (2 ^ 0) with 1 in Herr.
        assert (0 < 2 ^ (- e)) by (apply Z.pow_pos_nonneg; lia).
        nia. }
    destruct (m =? 2 ^ PyFloat.prec).
    + change (2 ^ (PyFloat.prec - 1)) with (Zpos (2 ^ 52)) in E.
      destruct (_ <=? _); discriminate.
    + destruct m; try lia. destruct (_ <=? _); discriminate.
  - rewrite E. discriminate.
  - rewrite E. intros H. injection H as <-. eauto.
Qed.

(** X14. The sign of the raw amount follows the sign of the text: a text
    that reads as a negative float gives a raw amount that is negative or
    zero, any other a raw amount that is positive or zero. *)
Theorem expected_raw_sign (text : string) (decimals : Z) (x : spec_float) (k : Z) :
  0 <= decimals ->
  PyFloat.float_of_str (PyStr.remove_char "," text) = Some x ->
  App.expected_to_raw text decimals = inr k ->
  if FloatSign.is_negative x then k <= 0 else 0 <= k.
Proof.
  intros Hd Hx. unfold App.expected_to_raw. rewrite Hx.
  destruct (PyFloat.float_of_int (10 ^ decimals)) as [err | scale] eqn:Es;
    [ discriminate | ].
  destruct (float_of_int_pow10 decimals Hd scale Es) as [p [e ->]].
  destruct x as [s | s | | s m ex]; cbn [PyFloat.fmul SFmul PyFloat.round_to_int];
    try discriminate.
  - intros H. injection H as <-. cbn [FloatSign.is_negative]. destruct s; lia.
  - cbn [FloatSign.is_negative]. rewrite xorb_false_r.
    destruct (fl_round_cases s
                (Zpos m * Zpos p * 2 ^ Z.max 0 (ex + e)) (2 ^ Z.max 0 (- (ex + e))))
      as [E | [E | [q [f E]]]]; rewrite E; cbn [PyFloat.round_to_int];
      try discriminate.
    + intros H. injection H as <-. destruct s; lia.
    + intros H. injection H as <-.
      pose proof (rne_div_nonneg (PyFloat.num_of q f) (PyFloat.den_of f)) as H0.
      assert (0 <= PyFloat.num_of q f)
        by (unfold PyFloat.num_of;
            assert (0 < 2 ^ Z.max 0 f) by (apply Z.pow_pos_nonneg; lia); nia).
      assert (0 < PyFloat.den_of f)
        by (unfold PyFloat.den_of; apply Z.pow_pos_nonneg; lia).
      destruct s; lia.
Qed.

(** Every power of ten a [uint8] can ask for converts to a finite float. *)
Lemma float_of_int_pow10_uint8 (d : Z) :
  0 <= d <= 255 ->
  exists p e, PyFloat.float_of_int (10 ^ d) = inr (S754_finite false p e).
Proof.
  intros Hd.
  assert (Hall : forallb
            (fun i => match PyFloat.float_of_int (10 ^ Z.of_nat i) with
                      | inr (S754_finite false _ _) => true
                      | _ => false
                      end) (seq 0 256) = true) by (vm_compute; reflexivity).
  rewrite forallb_forall in Hall.
  specialize (Hall (Z.to_nat d) ltac:(apply in_seq; lia)).
  rewrite Z2Nat.id in Hall by lia.
  destruct (PyFloat.float_of_int (10 ^ d)) as [ | [ | | | [] p e ] ];
    try discriminate.
  eauto.
Qed.

(** X15. For a token whose decimals fit a [uint8], a text that reads as an
    infinity ([inf], [-Infinity], ...) or as NaN does not give a raw amount:
    [round] raises on the product, an [OverflowError] for an infinity and
    a [ValueError] for NaN, and the comparison is skipped. *)
Theorem expected_infinite_or_nan (text : string) (decimals : Z) (x : spec_float) :
  0 <= decimals <= 255 ->
  PyFloat.float_of_str (PyStr.remove_char "," text) = Some x ->
  (x = S754_nan ->
   App.expected_to_raw text decimals = inl (App.Numeric PyFloat.ValueNanToInt))
  /\ (forall s, x = S754_infinity s ->
      App.expected_to_raw text decimals = inl (App.Numeric PyFloat.OverflowInfToInt)).
Proof.
  intros Hd Hx. unfold App.expected_to_raw. rewrite Hx.
  destruct (float_of_int_pow10_uint8 decimals Hd) as [p [e ->]].
  split; [ intros -> | intros s -> ]; reflexivity.
Qed.

(** ** Reading back what was printed *)

Lemma digits_rev_value (fuel : nat) (n : Z) :
  0 <= n < 10 ^ Z.of_nat fuel ->
  fold_right (fun d acc => 10 * acc + d) 0 (PyStr.digits_rev fuel n) = n.
Proof.
  revert n. induction fuel as [ | fuel IH ]; intros n Hn.
  - change (10 ^ Z.of_nat 0) with 1 in Hn. cbn. lia.
  - cbn [PyStr.digits_rev]. destruct (Z.ltb_spec n 10) as [Hs | Hs].
    + cbn. lia.
    + cbn [fold_right]. rewrite IH.
      * pose proof (Z.div_mod n 10 ltac:(lia)). lia.
      * rewrite Nat2Z.inj_succ, Z.pow_succ_r in Hn by lia.
        split; [ apply Z.div_pos; lia | apply Z.div_lt_upper_bound; lia ].
Qed.

(** The digits of a number spell that number. *)
Lemma digits_of_value (n : Z) : 0 <= n -> PyStr.digits_value (PyStr.digits_of n) = n.
Proof.
  intros Hn. unfold PyStr.digits_value, PyStr.digits_of.
  rewrite <- fold_left_rev_right, rev_involutive.
  apply digits_rev_value. split; [ exact Hn | ].
  rewrite Nat2Z.inj_succ, Z2Nat.id by apply Z.log2_nonneg.
  destruct (Z.eq_dec n 0) as [-> | Hz]; [ reflexivity | ].
  pose proof (Z.log2_spec n ltac:(lia)) as [_ Hlt].
  assert (2 ^ Z.succ (Z.log2 n) <= 10 ^ Z.succ (Z.log2 n)).
  { apply Z.pow_le_mono_l. lia. }
  lia.
Qed.

Lemma digits_value_leading_zeros (j : nat) (ds : list Z) :
  PyStr.digits_value (repeat 0 j ++ ds) = PyStr.digits_value ds.
Proof.
  unfold PyStr.digits_value. rewrite fold_left_app. f_equal.
  induction j as [ | j IH ]; cbn [repeat fold_left]; [ reflexivity | exact IH ].
Qed.

Lemma digit_val_char (d : Z) : 0 <= d <= 9 -> PyStr.digit_val (PyStr.digit_char d) = d.
Proof.
  intros H.
  assert (C : d = 0 \/ d = 1 \/ d = 2 \/ d = 3 \/ d = 4 \/ d = 5 \/ d = 6
              \/ d = 7 \/ d = 8 \/ d = 9) by lia.
  repeat (destruct C as [-> | C]; [ reflexivity | ]). subst. reflexivity.
Qed.

Lemma string_of_digits_app (a b : list Z) :
  PyStr.string_of_digits (a ++ b)
  = PyStr.string_of_digits a ++ PyStr.string_of_digits b.
Proof.
  unfold PyStr.string_of_digits.
  induction a as [ | d a IH ]; cbn [app map string_of_list_ascii append];
    [ reflexivity | rewrite IH; reflexivity ].
Qed.

(** What a character that opens a number is not. *)
Lemma digit_first (c : ascii) :
  PyStr.is_digit c = true ->
  PyStr.is_space c = false
  /\ Ascii.eqb c "," = false
  /\ PyStr.lower_char c = c
  /\ Ascii.eqb c "i" = false /\ Ascii.eqb c "n" = false
  /\ Ascii.eqb c "-" = false /\ Ascii.eqb c "+" = false.
Proof. each_char c; cbv; intros H; try discriminate H; repeat split. Qed.

Lemma take_sign_digit (c : ascii) (r : string) :
  PyStr.is_digit c = true -> PyFloat.take_sign (String c r) = (false, String c r).
Proof. each_char c; cbv [PyStr.is_digit]; cbn; intros H; try discriminate H; reflexivity. Qed.

Lemma all_chars_app (f : ascii -> bool) (s t : string) :
  PyStr.all_chars f (s ++ t) = PyStr.all_chars f s && PyStr.all_chars f t.
Proof.
  induction s as [ | c s IH ]; cbn [append PyStr.all_chars]; [ reflexivity | ].
  rewrite IH, andb_assoc. reflexivity.
Qed.

Lemma all_chars_weaken (f g : ascii -> bool) (s : string) :
  (forall c, f c = true -> g c = true) ->
  PyStr.all_chars f s = true -> PyStr.all_chars g s = true.
Proof.
  intros Hfg. induction s as [ | c s IH ]; cbn [PyStr.all_chars]; [ auto | ].
  intros H. apply andb_prop in H as [Hc Hs]. rewrite (Hfg c Hc), (IH Hs). reflexivity.
Qed.

Lemma remove_char_absent (c : ascii) (s : string) :
  PyStr.all_chars (fun a => negb (Ascii.eqb a c)) s = true ->
  PyStr.remove_char c s = s.
Proof.
  induction s as [ | a s IH ]; cbn [PyStr.all_chars PyStr.remove_char]; [ auto | ].
  intros H. apply andb_prop in H as [Ha Hs].
  destruct (Ascii.eqb a c); [ discriminate | ]. rewrite (IH Hs). reflexivity.
Qed.

(** A text of code points below 127 is ASCII already. *)
Lemma to_ascii_plain (s : string) :
  PyStr.all_chars (fun a => (nat_of_ascii a <? 127)%nat) s = true ->
  PyFloat.to_ascii s = s.
Proof.
  induction s as [ | a s IH ]; cbn [PyStr.all_chars PyFloat.to_ascii]; [ auto | ].
  intros H. apply andb_prop in H as [Ha Hs]. rewrite Ha, (IH Hs). reflexivity.
Qed.

Lemma digit_is_plain (c : ascii) :
  PyStr.is_digit c || Ascii.eqb c "." = true -> (nat_of_ascii c <? 127)%nat = true.
Proof. each_char c; cbv; intros H; try discriminate H; reflexivity. Qed.

Lemma rstrip_no_space (s : string) :
  PyStr.all_chars (fun a => negb (PyStr.is_space a)) s = true -> PyStr.rstrip s = s.
Proof.
  induction s as [ | a s IH ]; cbn [PyStr.all_chars PyStr.rstrip]; [ auto | ].
  intros H. apply andb_prop in H as [Ha Hs]. rewrite (IH Hs).
  destruct s; [ | reflexivity ].
  destruct (PyStr.is_space a); [ discriminate | reflexivity ].
Qed.

(** A digit part is read up to the first character that cannot go on it. *)
Lemma digitpart_rest_digits (ds : list Z) (rest : string) :
  Forall (fun d => 0 <= d <= 9) ds ->
  rest = "" \/ (exists c r, rest = String c r /\ PyStr.is_digit c = false
                            /\ Ascii.eqb c "_" = false) ->
  PyFloat.digitpart_rest (PyStr.string_of_digits ds ++ rest) = (ds, rest).
Proof.
  intros Hds Hrest. induction Hds as [ | d ds Hd _ IH ].
  - cbn [PyStr.string_of_digits map string_of_list_ascii append].
    destruct Hrest as [-> | [c [r [-> [Hc Hu]]]]]; [ reflexivity | ].
    cbn [PyFloat.digitpart_rest]. rewrite Hc, Hu. reflexivity.
  - change (PyStr.string_of_digits (d :: ds) ++ rest)
      with (String (PyStr.digit_char d) (PyStr.string_of_digits ds ++ rest)).
    cbn [PyFloat.digitpart_rest].
    rewrite (digit_char_is_digit d Hd), IH, (digit_val_char d Hd). reflexivity.
Qed.

Lemma digitpart_digits (d : Z) (ds : list Z) (rest : string) :
  Forall (fun d => 0 <= d <= 9) (d :: ds) ->
  rest = "" \/ (exists c r, rest = String c r /\ PyStr.is_digit c = false
                            /\ Ascii.eqb c "_" = false) ->
  PyFloat.digitpart (PyStr.string_of_digits (d :: ds) ++ rest) = Some (d :: ds, rest).
Proof.
  intros Hds Hrest. inversion Hds as [ | ? ? Hd Hds' ]; subst.
  change (PyStr.string_of_digits (d :: ds) ++ rest)
    with (String (PyStr.digit_char d) (PyStr.string_of_digits ds ++ rest)).
  cbn [PyFloat.digitpart].
  rewrite (digit_char_is_digit d Hd), (digitpart_rest_digits ds rest Hds' Hrest),
    (digit_val_char d Hd).
  reflexivity.
Qed.

(** [float] reads digits, a point and digits as the float nearest to the
    decimal number they spell. *)
Lemma float_of_str_fixed (i f : Z) (ip fp : list Z) :
  Forall (fun d => 0 <= d <= 9) (i :: ip) ->
  Forall (fun d => 0 <= d <= 9) (f :: fp) ->
  let text := PyStr.string_of_digits (i :: ip) ++ "." ++ PyStr.string_of_digits (f :: fp) in
  PyStr.remove_char "," text = text
  /\ PyFloat.float_of_str text
     = Some (PyFloat.float_of_decimal false
               (PyStr.digits_value ((i :: ip) ++ f :: fp))
               (- Z.of_nat (List.length (f :: fp)))).
Proof.
  intros Hip Hfp text.
  assert (Hdig : PyStr.all_chars
                   (fun c => PyStr.is_digit c || Ascii.eqb c ".") text = true).
  { unfold text. rewrite !all_chars_app. cbn [PyStr.all_chars].
    assert (Hw : forall c, PyStr.is_digit c = true ->
                           PyStr.is_digit c || Ascii.eqb c "." = true)
      by (intros c Hc; rewrite Hc; reflexivity).
    rewrite (all_chars_weaken PyStr.is_digit
               (fun c => PyStr.is_digit c || Ascii.eqb c ".") _ Hw
               (string_of_digits_all_digits _ Hip)).
    rewrite (all_chars_weaken PyStr.is_digit
               (fun c => PyStr.is_digit c || Ascii.eqb c ".") _ Hw
               (string_of_digits_all_digits _ Hfp)).
    reflexivity. }
  assert (Hchar : forall c, PyStr.is_digit c || Ascii.eqb c "." = true ->
                            negb (Ascii.eqb c ",") = true
                            /\ negb (PyStr.is_space c) = true).
  { intros c. each_char c; cbv; intros H; try discriminate H; split; reflexivity. }
  split.
  - apply remove_char_absent.
    apply (all_chars_weaken _ _ _ (fun c H => proj1 (Hchar c H)) Hdig).
  - inversion Hip as [ | ? ? Hi Hip' ]; subst.
    pose proof (digit_char_is_digit i Hi) as Hc.
    destruct (digit_first _ Hc) as [Hsp [_ [Hlow [Hni [Hnn _]]]]].
    unfold PyFloat.float_of_str, PyStr.strip.
    rewrite (to_ascii_plain text (all_chars_weaken _ _ _ digit_is_plain Hdig)).
    assert (Etext : text = String (PyStr.digit_char i)
                             (PyStr.string_of_digits ip ++ "."
                              ++ PyStr.string_of_digits (f :: fp))) by reflexivity.
    replace (PyStr.lstrip text) with text
      by (rewrite Etext; cbn [PyStr.lstrip]; rewrite Hsp; reflexivity).
    rewrite (rstrip_no_space text
               (all_chars_weaken _ _ _ (fun c H => proj2 (Hchar c H)) Hdig)).
    rewrite Etext at 1. rewrite (take_sign_digit _ _ Hc). rewrite <- Etext.
    replace (String.eqb (PyStr.lower text) "inf") with false
      by (rewrite Etext; cbn [PyStr.lower String.eqb]; rewrite Hlow, Hni; reflexivity).
    replace (String.eqb (PyStr.lower text) "infinity") with false
      by (rewrite Etext; cbn [PyStr.lower String.eqb]; rewrite Hlow, Hni; reflexivity).
    replace (String.eqb (PyStr.lower text) "nan") with false
      by (rewrite Etext; cbn [PyStr.lower String.eqb]; rewrite Hlow, Hnn; reflexivity).
    cbn [orb]. unfold PyFloat.number, text.
    rewrite (digitpart_digits i ip _ Hip)
      by (right; eexists; eexists; split; [ reflexivity | split; reflexivity ]).
    cbn [append].
    replace (PyStr.string_of_digits (f :: fp))
      with (PyStr.string_of_digits (f :: fp) ++ "")
      by (clear; induction (PyStr.string_of_digits (f :: fp)); cbn; congruence).
    rewrite (digitpart_digits f fp "" Hfp) by (left; reflexivity).
    reflexivity.
Qed.

(** The two digit parts of a number printed with [S n] places. *)
Lemma fixed_point_parts (k : Z) (n : nat) :
  0 <= k ->
  exists i ip f fp,
    PyFloat.fixed_point k (S n)
    = PyStr.string_of_digits (i :: ip) ++ "." ++ PyStr.string_of_digits (f :: fp)
    /\ Forall (fun d => 0 <= d <= 9) (i :: ip)
    /\ Forall (fun d => 0 <= d <= 9) (f :: fp)
    /\ PyStr.digits_value ((i :: ip) ++ f :: fp) = k
    /\ List.length (f :: fp) = S n.
Proof.
  intros Hk. unfold PyFloat.fixed_point.
  set (j := (S (S n) - List.length (PyStr.digits_of k))%nat).
  set (ds := (repeat 0 j ++ PyStr.digits_of k)%list).
  assert (Hlen : (S (S n) <= List.length ds)%nat).
  { unfold ds, j. rewrite length_app, repeat_length. lia. }
  assert (Hall : Forall (fun d => 0 <= d <= 9) ds).
  { unfold ds. apply Forall_app. split.
    - apply Forall_forall. intros x Hx. apply repeat_spec in Hx. lia.
    - apply digits_of_range. exact Hk. }
  assert (Hval : PyStr.digits_value ds = k).
  { unfold ds. rewrite digits_value_leading_zeros. apply digits_of_value. exact Hk. }
  rewrite <- (firstn_skipn (List.length ds - S n) ds) in Hall, Hval.
  apply Forall_app in Hall as [Hip Hfp].
  pose proof (length_firstn (List.length ds - S n) ds) as Li.
  pose proof (length_skipn (List.length ds - S n) ds) as Lf.
  destruct (firstn (List.length ds - S n) ds) as [ | i ip ];
    [ cbn [List.length] in Li; lia | ].
  destruct (skipn (List.length ds - S n) ds) as [ | f fp ];
    [ cbn [List.length] in Lf; lia | ].
  exists i, ip, f, fp. repeat split; try assumption. lia.
Qed.

(** Printing with [S n] places and reading back gives the float nearest
    to [k / 10^(S n)]. *)
Lemma float_of_str_fixed_point (k : Z) (n : nat) :
  0 <= k ->
  PyFloat.float_of_str (PyStr.remove_char "," (PyFloat.fixed_point k (S n)))
  = Some (PyFloat.fl_round false k (10 ^ Z.of_nat (S n))).
Proof.
  intros Hk.
  destruct (fixed_point_parts k n Hk) as [i [ip [f [fp [E [Hip [Hfp [Hv Hl]]]]]]]].
  destruct (float_of_str_fixed i f ip fp Hip Hfp) as [Hc Hf].
  rewrite E, Hc, Hf, Hv, Hl.
  unfold PyFloat.float_of_decimal.
  rewrite (Z.max_l 0 (- Z.of_nat (S n))), (Z.max_r 0 (- - Z.of_nat (S n))) by lia.
  rewrite Z.opp_involutive. change (10 ^ 0) with 1. rewrite Z.mul_1_r. reflexivity.
Qed.

(** Below [2^52] the float nearest to [raw / 10^d] is normal, with a
    negative exponent, and times [10^d] it is within half a unit of [raw]. *)
Lemma quotient_close (raw d : Z) :
  0 < raw < 2 ^ 52 ->
  1 <= d <= 18 ->
  exists mx ex,
    PyFloat.fl_round false raw (10 ^ d) = S754_finite false mx ex
    /\ ex < 0
    /\ 2 * Z.abs (Zpos mx * 10 ^ d - raw * 2 ^ (- ex)) < 2 ^ (- ex).
Proof.
  intros Hraw Hd.
  pose proof (pow10_bounds d Hd) as HD.
  set (D := 10 ^ d) in *.
  assert (Hn : 0 < raw) by lia. assert (HD0 : 0 < D) by lia.
  pose proof (ilog2_ratio_spec raw D Hn HD0) as Hspec. cbv zeta in Hspec.
  set (k := PyFloat.ilog2_ratio raw D) in *. destruct Hspec as [Hlo Hhi].
  assert (Hk : -61 <= k <= 48).
  { split.
    - destruct (Z_le_gt_dec (-61) k) as [ | Hc ]; [ assumption | exfalso ].
      rewrite (Z.max_l 0 k), (Z.max_r 0 (- k)) in Hhi by lia.
      change (2 ^ 0) with 1 in Hhi.
      assert (2 ^ 62 <= 2 ^ (- k)) by (apply Z.pow_le_mono_r; lia).
      change (2 ^ 62) with 4611686018427387904 in *.
      change (10 ^ 18) with 1000000000000000000 in *. nia.
    - destruct (Z_le_gt_dec k 48) as [ | Hc ]; [ assumption | exfalso ].
      rewrite (Z.max_r 0 k), (Z.max_l 0 (- k)) in Hlo by lia.
      change (2 ^ 0) with 1 in Hlo.
      assert (2 ^ 49 <= 2 ^ k) by (apply Z.pow_le_mono_r; lia).
      change (2 ^ 49) with 562949953421312 in *.
      change (2 ^ 52) with 4503599627370496 in *. nia. }
  destruct (fl_round_normal false raw D Hn HD0 ltac:(fold k; lia))
    as [Hscale [Hm Hfl]].
  fold k in Hscale, Hm, Hfl.
  set (E := 2 ^ (52 - k)) in *.
  set (m := PyFloat.rne_div (raw * E) D) in *.
  pose proof (rne_div_error (raw * E) D HD0) as Herr. fold m in Herr.
  assert (HE : 0 < E) by (apply Z.pow_pos_nonneg; lia).
  assert (HDE : D < E)
    by (apply (scale_exceeds raw D E (2 ^ 52)); [ exact Hraw | exact HE | apply Hscale ]).
  rewrite Hfl.
  destruct (Z.eqb_spec m (2 ^ 53)) as [Em | Em].
  - exists (2 ^ 52)%positive, (k - 51). split; [ reflexivity | ]. split; [ lia | ].
    replace (- (k - 51)) with (51 - k) by lia.
    assert (E2 : E = 2 * 2 ^ (51 - k)).
    { unfold E. rewrite <- (Z.pow_succ_r 2 (51 - k)) by lia. f_equal. lia. }
    set (F := 2 ^ (51 - k)) in *.
    apply (halved_close raw D F (Zpos (2 ^ 52))).
    + rewrite <- E2. exact HDE.
    + rewrite <- E2. change (2 * Zpos (2 ^ 52)) with (2 ^ 53).
      rewrite <- Em. exact Herr.
  - exists (Z.to_pos m), (k - 52). split; [ reflexivity | ]. split; [ lia | ].
    replace (- (k - 52)) with (52 - k) by lia. fold E.
    rewrite Z2Pos.id by (change (2 ^ 52) with 4503599627370496 in *; lia).
    eapply Z.le_lt_trans; [ exact Herr | exact HDE ].
Qed.

(** The powers of ten up to [10^18] are floats. *)
Lemma scale_exact (d : Z) :
  1 <= d <= 18 ->
  exists p e,
    PyFloat.float_of_int (10 ^ d) = inr (S754_finite false p e)
    /\ Zpos p * 2 ^ Z.max 0 e = 10 ^ d * 2 ^ Z.max 0 (- e).
Proof.
  intros Hd.
  assert (Hall : forallb
            (fun i => match PyFloat.float_of_int (10 ^ Z.of_nat i) with
                      | inr (S754_finite false p e) =>
                          Zpos p * 2 ^ Z.max 0 e =? 10 ^ Z.of_nat i * 2 ^ Z.max 0 (- e)
                      | _ => false
                      end) (seq 1 18) = true) by (vm_compute; reflexivity).
  rewrite forallb_forall in Hall.
  specialize (Hall (Z.to_nat d) ltac:(apply in_seq; lia)).
  rewrite Z2Nat.id in Hall by lia.
  destruct (PyFloat.float_of_int (10 ^ d)) as [ | [ | | | [] p e ] ];
    try discriminate.
  exists p, e. split; [ reflexivity | ]. apply Z.eqb_eq. exact Hall.
Qed.

(** Three roundings in a row, each within half a unit, stay within one
    unit when the middle one is in units no larger than one. *)
Lemma within_one (K raw m N E D : Z) :
  1 <= E -> 1 <= D ->
  2 * Z.abs (K * E - m) <= E ->
  2 * Z.abs (m * D - N * E) <= D ->
  2 * Z.abs (N - raw * D) < D ->
  raw - 1 <= K <= raw + 1.
Proof.
  intros HE HD Ha Hb Hc.
  set (A := Z.abs (K * E - m)) in *.
  set (B := Z.abs (m * D - N * E)) in *.
  set (C := Z.abs (N - raw * D)) in *.
  set (T := Z.abs (K - raw)).
  assert (HA : 0 <= A) by apply Z.abs_nonneg.
  assert (HC : 0 <= C) by apply Z.abs_nonneg.
  assert (HT : 0 <= T) by apply Z.abs_nonneg.
  assert (Hsum : T * (E * D) <= A * D + B + C * E).
  { unfold T, A, B, C.
    rewrite <- (Z.abs_eq (E * D)) at 1 by nia.
    rewrite <- Z.abs_mul.
    replace ((K - raw) * (E * D))
      with ((K * E - m) * D + (m * D - N * E) + (N - raw * D) * E) by ring.
    eapply Z.le_trans; [ apply Z.abs_triangle | ].
    eapply Z.le_trans; [ apply Z.add_le_mono_r, Z.abs_triangle | ].
    rewrite !Z.abs_mul, (Z.abs_eq D), (Z.abs_eq E) by lia. lia. }
  assert (H1 : 2 * (A * D) <= E * D).
  { replace (2 * (A * D)) with (2 * A * D) by ring.
    apply Z.mul_le_mono_nonneg_r; lia. }
  assert (H2 : 2 * (C * E) <= (D - 1) * E).
  { replace (2 * (C * E)) with (2 * C * E) by ring.
    apply Z.mul_le_mono_nonneg_r; lia. }
  assert (H3 : D <= E * D).
  { rewrite <- (Z.mul_1_l D) at 1. apply Z.mul_le_mono_nonneg_r; lia. }
  assert (H4 : T <= 1 \/ 2 * (E * D) <= T * (E * D)).
  { destruct (Z_le_gt_dec T 1) as [ | Hgt ]; [ left; assumption | right ].
    apply Z.mul_le_mono_nonneg_r; lia. }
  assert (HT1 : T <= 1).
  { destruct H4 as [ | H4 ]; [ assumption | ].
    rewrite Z.mul_sub_distr_r in H2. lia. }
  unfold T in HT1. lia.
Qed.

(** The fraction [fmul] hands to the rounding is the exact product. *)
Lemma product_fraction (D : Z) (mx p : positive) (ex e : Z) :
  ex < 0 ->
  Zpos p * 2 ^ Z.max 0 e = D * 2 ^ Z.max 0 (- e) ->
  Zpos mx * Zpos p * 2 ^ Z.max 0 (ex + e) * 2 ^ (- ex)
  = Zpos mx * D * 2 ^ Z.max 0 (- (ex + e)).
Proof.
  intros Hex Hp.
  destruct (Z_le_gt_dec 0 (ex + e)) as [Hs | Hs].
  - rewrite (Z.max_r 0 (ex + e)), (Z.max_l 0 (- (ex + e))) by lia.
    rewrite (Z.max_r 0 e), (Z.max_l 0 (- e)) in Hp by lia.
    change (2 ^ 0) with 1 in *. rewrite Z.mul_1_r in *.
    rewrite <- Hp.
    replace (Zpos mx * Zpos p * 2 ^ (ex + e) * 2 ^ (- ex))
      with (Zpos mx * Zpos p * (2 ^ (ex + e) * 2 ^ (- ex))) by ring.
    rewrite <- Z.pow_add_r by lia.
    replace (ex + e + - ex) with e by lia. ring.
  - rewrite (Z.max_l 0 (ex + e)), (Z.max_r 0 (- (ex + e))) by lia.
    change (2 ^ 0) with 1. rewrite Z.mul_1_r.
    destruct (Z_le_gt_dec 0 e) as [He | He].
    + rewrite (Z.max_r 0 e), (Z.max_l 0 (- e)) in Hp by lia.
      change (2 ^ 0) with 1 in Hp. rewrite Z.mul_1_r in Hp. rewrite <- Hp.
      replace (Zpos mx * (Zpos p * 2 ^ e) * 2 ^ (- (ex + e)))
        with (Zpos mx * Zpos p * (2 ^ e * 2 ^ (- (ex + e)))) by ring.
      rewrite <- Z.pow_add_r by lia.
      replace (e + - (ex + e)) with (- ex) by lia. reflexivity.
    + rewrite (Z.max_l 0 e), (Z.max_r 0 (- e)) in Hp by lia.
      change (2 ^ 0) with 1 in Hp. rewrite Z.mul_1_r in Hp. rewrite Hp.
      replace (Zpos mx * (D * 2 ^ (- e)) * 2 ^ (- ex))
        with (Zpos mx * D * (2 ^ (- e) * 2 ^ (- ex))) by ring.
      rewrite <- Z.pow_add_r by lia.
      replace (- e + - ex) with (- (ex + e)) by lia. reflexivity.
Qed.

(** The product of a float close to [raw / D] and of [D], rounded to an
    integer, is within one unit of [raw]. *)
Lemma product_round (raw D : Z) (mx p : positive) (ex e : Z) :
  0 < raw < 2 ^ 52 ->
  0 < D ->
  ex < 0 ->
  2 * Z.abs (Zpos mx * D - raw * 2 ^ (- ex)) < 2 ^ (- ex) ->
  Zpos p * 2 ^ Z.max 0 e = D * 2 ^ Z.max 0 (- e) ->
  exists k,
    PyFloat.round_to_int
      (PyFloat.fmul (S754_finite false mx ex) (S754_finite false p e)) = inr k
    /\ raw - 1 <= k <= raw + 1.
Proof.
  intros Hraw HD Hex Hclose Hp.
  cbn [PyFloat.fmul xorb].
  set (N' := Zpos mx * Zpos p * 2 ^ Z.max 0 (ex + e)).
  set (D' := 2 ^ Z.max 0 (- (ex + e))).
  set (Fx := 2 ^ (- ex)) in *.
  assert (HFx : 0 < Fx) by (apply Z.pow_pos_nonneg; lia).
  assert (HD' : 0 < D') by (apply Z.pow_pos_nonneg; lia).
  assert (Hprod : N' * Fx = Zpos mx * D * D')
    by (apply product_fraction; assumption).
  (* so it is within half a unit of [raw] *)
  assert (Hnear : 2 * Z.abs (N' - raw * D') < D').
  { assert (Hid : (Zpos mx * D - raw * Fx) * D' = (N' - raw * D') * Fx).
    { rewrite !Z.mul_sub_distr_r, Hprod. ring. }
    apply (f_equal Z.abs) in Hid. rewrite !Z.abs_mul in Hid.
    rewrite (Z.abs_eq D'), (Z.abs_eq Fx) in Hid by lia.
    exact (error_rescaled _ _ D' Fx HD' HFx Hid Hclose). }
  assert (Hr0 : 0 < raw) by apply Hraw.
  pose proof (near_multiple_lower N' raw D' Hr0 HD' Hnear) as Hhalf.
  pose proof (near_multiple_upper N' raw D' (2 ^ 52) (proj2 Hraw) HD' Hnear) as Htop.
  assert (HN' : 0 < N') by (clear - Hhalf HD'; lia).
  pose proof (ilog2_ratio_spec N' D' HN' HD') as Hspec. cbv zeta in Hspec.
  set (k' := PyFloat.ilog2_ratio N' D') in *. destruct Hspec as [Hlo Hhi].
  assert (Hk : -1 <= k' <= 51).
  { split.
    - destruct (Z_le_gt_dec (-1) k') as [ | Hc ]; [ assumption | exfalso ].
      rewrite (Z.max_l 0 k'), (Z.max_r 0 (- k')) in Hhi by lia.
      change (2 ^ 0) with 1 in Hhi.
      assert (HP : 2 ^ 2 <= 2 ^ (- k')) by (apply Z.pow_le_mono_r; lia).
      rewrite Z.mul_1_r in Hhi.
      apply (exponent_not_below N' D' (2 ^ (- k')) (2 ^ 2) HN' HP); [ | exact Hhi ].
      change (2 ^ 2) with 4. clear - Hhalf. lia.
    - destruct (Z_le_gt_dec k' 51) as [ | Hc ]; [ assumption | exfalso ].
      rewrite (Z.max_r 0 k'), (Z.max_l 0 (- k')) in Hlo by lia.
      change (2 ^ 0) with 1 in Hlo.
      assert (HP : 2 ^ 52 <= 2 ^ k') by (apply Z.pow_le_mono_r; lia).
      rewrite Z.mul_1_r in Hlo.
      exact (exponent_not_above N' D' (2 ^ k') (2 ^ 52) HD' HP Htop Hlo). }
  destruct (fl_round_normal false N' D' HN' HD' ltac:(fold k'; lia))
    as [_ [Hm Hfl]].
  fold k' in Hm, Hfl.
  set (E' := 2 ^ (52 - k')) in *.
  set (m' := PyFloat.rne_div (N' * E') D') in *.
  pose proof (rne_div_error (N' * E') D' HD') as Herr. fold m' in Herr.
  assert (HE' : 1 <= E')
    by (pose proof (Z.pow_pos_nonneg 2 (52 - k') ltac:(lia) ltac:(lia)); unfold E'; lia).
  rewrite Hfl.
  destruct (Z.eqb_spec m' (2 ^ 53)) as [Em | Em].
  - cbn [PyFloat.round_to_int]. eexists. split; [ reflexivity | ].
    unfold PyFloat.num_of, PyFloat.den_of.
    rewrite (Z.max_l 0 (k' - 51)), (Z.max_r 0 (- (k' - 51))) by lia.
    change (2 ^ 0) with 1. rewrite Z.mul_1_r.
    replace (- (k' - 51)) with (51 - k') by lia.
    assert (E2 : E' = 2 * 2 ^ (51 - k')).
    { unfold E'. rewrite <- (Z.pow_succ_r 2 (51 - k')) by lia. f_equal. lia. }
    set (G := 2 ^ (51 - k')) in *.
    assert (HG : 0 < G) by (apply Z.pow_pos_nonneg; lia).
    pose proof (rne_div_error (Zpos (2 ^ 52)) G HG) as HK.
    apply (within_one _ raw (Zpos (2 ^ 52)) N' G D'
             ltac:(clear - HG; lia) ltac:(clear - HD'; lia) HK);
      [ | exact Hnear ].
    apply halved_error. rewrite <- E2. change (2 * Zpos (2 ^ 52)) with (2 ^ 53).
    rewrite <- Em. exact Herr.
  - cbn [PyFloat.round_to_int]. eexists. split; [ reflexivity | ].
    unfold PyFloat.num_of, PyFloat.den_of.
    rewrite (Z.max_l 0 (k' - 52)), (Z.max_r 0 (- (k' - 52))) by lia.
    change (2 ^ 0) with 1. rewrite Z.mul_1_r.
    replace (- (k' - 52)) with (52 - k') by lia. fold E'.
    rewrite Z2Pos.id by (change (2 ^ 52) with 4503599627370496 in *; lia).
    pose proof (rne_div_error m' E' ltac:(clear - HE'; lia)) as HK.
    exact (within_one _ raw m' N' E' D' HE' ltac:(clear - HD'; lia) HK Herr Hnear).
Qed.

(** X16. Below [2^52] base units and for 1 to 18 decimals, the printed
    human amount can be passed back as [--expected]: it is read without
    error, and the raw amount computed from it is within one unit of the
    raw allowance it was printed from. *)
Theorem human_amount_round_trip (raw d : Z) :
  0 <= raw < 2 ^ 52 ->
  1 <= d <= 18 ->
  exists human k,
    App.human_amount raw d = inr human
    /\ App.expected_to_raw human d = inr k
    /\ raw - 1 <= k <= raw + 1.
Proof.
  intros Hraw Hd.
  exists (PyFloat.fixed_point raw (Z.to_nat d)).
  assert (Hh := human_amount_fixed_point raw d Hraw Hd).
  destruct (Z.to_nat d) as [ | n ] eqn:En; [ lia | ].
  assert (Epow : 10 ^ Z.of_nat (S n) = 10 ^ d) by (rewrite <- En, Z2Nat.id by lia; reflexivity).
  destruct (scale_exact d Hd) as [p [e [Escale Hp]]].
  unfold App.expected_to_raw.
  rewrite (float_of_str_fixed_point raw n ltac:(lia)), Epow, Escale.
  destruct (Z.eq_dec raw 0) as [-> | Hnz].
  - exists 0. split; [ exact Hh | ]. split; [ reflexivity | lia ].
  - destruct (quotient_close raw d ltac:(lia) Hd) as [mx [ex [Ex [Hex Hclose]]]].
    rewrite Ex.
    assert (HD : 0 < 10 ^ d) by (apply Z.pow_pos_nonneg; lia).
    destruct (product_round raw (10 ^ d) mx p ex e ltac:(lia) HD Hex Hclose Hp)
      as [k [Ek Hk]].
    exists k. rewrite Ek. auto.
Qed.

(** ** Tokens without decimals *)

Lemma rne_div_exact (a b : Z) : 0 < b -> PyFloat.rne_div (a * b) b = a.
Proof.
  intros Hb. apply rne_div_unique; [ exact Hb | ].
  replace (a * b - a * b) with 0 by ring. cbn. lia.
Qed.

(** When the float is [raw / D] exactly, the product rounds to [raw]. *)
Lemma product_round_exact (raw D : Z) (mx p : positive) (ex e : Z) :
  0 < raw < 2 ^ 52 ->
  0 < D ->
  ex < 0 ->
  Zpos mx * D = raw * 2 ^ (- ex) ->
  Zpos p * 2 ^ Z.max 0 e = D * 2 ^ Z.max 0 (- e) ->
  PyFloat.round_to_int
    (PyFloat.fmul (S754_finite false mx ex) (S754_finite false p e)) = inr raw.
Proof.
  intros Hraw HD Hex Hx Hp.
  cbn [PyFloat.fmul xorb].
  pose proof (product_fraction D mx p ex e Hex Hp) as Hprod.
  set (N' := Zpos mx * Zpos p * 2 ^ Z.max 0 (ex + e)) in *.
  set (D' := 2 ^ Z.max 0 (- (ex + e))) in *.
  set (Fx := 2 ^ (- ex)) in *.
  assert (HFx : 0 < Fx) by (apply Z.pow_pos_nonneg; lia).
  assert (HD' : 0 < D') by (apply Z.pow_pos_nonneg; lia).
  assert (HN : N' = raw * D').
  { apply (Z.mul_reg_r _ _ Fx); [ lia | ]. rewrite Hprod, Hx. ring. }
  assert (HN' : 0 < N') by (rewrite HN; apply Z.mul_pos_pos; [ apply Hraw | exact HD' ]).
  assert (Hbot : D' <= N').
  { rewrite HN, <- (Z.mul_1_l D') at 1.
    apply Z.mul_le_mono_nonneg_r; [ | clear - Hraw ]; lia. }
  assert (Htop : N' < 2 ^ 52 * D')
    by (rewrite HN; apply Z.mul_lt_mono_pos_r; [ exact HD' | apply Hraw ]).
  pose proof (ilog2_ratio_spec N' D' HN' HD') as Hspec. cbv zeta in Hspec.
  set (k' := PyFloat.ilog2_ratio N' D') in *. destruct Hspec as [Hlo Hhi].
  assert (Hk : 0 <= k' <= 51).
  { split.
    - destruct (Z_le_gt_dec 0 k') as [ | Hc ]; [ assumption | exfalso ].
      rewrite (Z.max_l 0 k'), (Z.max_r 0 (- k')) in Hhi by lia.
      change (2 ^ 0) with 1 in Hhi.
      assert (HP : 2 ^ 1 <= 2 ^ (- k')) by (apply Z.pow_le_mono_r; lia).
      rewrite Z.mul_1_r in Hhi.
      apply (exponent_not_below N' D' (2 ^ (- k')) (2 ^ 1) HN' HP); [ | exact Hhi ].
      change (2 ^ 1) with 2. clear - Hbot. lia.
    - destruct (Z_le_gt_dec k' 51) as [ | Hc ]; [ assumption | exfalso ].
      rewrite (Z.max_r 0 k'), (Z.max_l 0 (- k')) in Hlo by lia.
      change (2 ^ 0) with 1 in Hlo.
      assert (HP : 2 ^ 52 <= 2 ^ k') by (apply Z.pow_le_mono_r; lia).
      rewrite Z.mul_1_r in Hlo.
      exact (exponent_not_above N' D' (2 ^ k') (2 ^ 52) HD' HP Htop Hlo). }
  destruct (fl_round_normal false N' D' HN' HD' ltac:(fold k'; lia))
    as [Hscale [_ Hfl]].
  fold k' in Hscale, Hfl.
  set (E' := 2 ^ (52 - k')) in *.
  assert (HE' : 0 < E') by (apply Z.pow_pos_nonneg; lia).
  assert (Hm : PyFloat.rne_div (N' * E') D' = raw * E').
  { replace (N' * E') with (raw * E' * D') by (rewrite HN; ring).
    apply rne_div_exact. exact HD'. }
  rewrite Hm in Hfl.
  assert (Hlt : 2 ^ 52 <= raw * E' < 2 ^ 53).
  { rewrite HN in Hscale.
    replace (raw * D' * E') with (raw * E' * D') in Hscale by ring.
    exact (bounds_cancel D' (raw * E') _ _ HD' Hscale). }
  replace (raw * E' =? 2 ^ 53) with false in Hfl
    by (symmetry; apply Z.eqb_neq, Z.lt_neq, Hlt).
  rewrite Hfl. cbn [PyFloat.round_to_int]. f_equal.
  unfold PyFloat.num_of, PyFloat.den_of.
  rewrite (Z.max_l 0 (k' - 52)), (Z.max_r 0 (- (k' - 52))) by lia.
  change (2 ^ 0) with 1. rewrite Z.mul_1_r.
  replace (- (k' - 52)) with (52 - k') by lia. fold E'.
  rewrite Z2Pos.id by (clear - Hlt; change (2 ^ 52) with 4503599627370496 in Hlt; lia).
  apply rne_div_exact. exact HE'.
Qed.

(** An integer below [2^52] is a float. *)
Lemma integer_float (raw : Z) :
  0 < raw < 2 ^ 52 ->
  exists mx ex,
    PyFloat.fl_round false raw 1 = S754_finite false mx ex
    /\ ex < 0
    /\ Zpos mx * 1 = raw * 2 ^ (- ex).
Proof.
  intros Hraw.
  pose proof (ilog2_ratio_spec raw 1 ltac:(lia) ltac:(lia)) as Hspec.
  cbv zeta in Hspec.
  set (k := PyFloat.ilog2_ratio raw 1) in *. destruct Hspec as [Hlo Hhi].
  assert (Hk : 0 <= k <= 51).
  { split.
    - destruct (Z_le_gt_dec 0 k) as [ | Hc ]; [ assumption | exfalso ].
      rewrite (Z.max_l 0 k), (Z.max_r 0 (- k)) in Hhi by lia.
      change (2 ^ 0) with 1 in Hhi.
      assert (2 ^ 1 <= 2 ^ (- k)) by (apply Z.pow_le_mono_r; lia).
      change (2 ^ 1) with 2 in *. nia.
    - destruct (Z_le_gt_dec k 51) as [ | Hc ]; [ assumption | exfalso ].
      rewrite (Z.max_r 0 k), (Z.max_l 0 (- k)) in Hlo by lia.
      change (2 ^ 0) with 1 in Hlo.
      assert (2 ^ 52 <= 2 ^ k) by (apply Z.pow_le_mono_r; lia).
      change (2 ^ 52) with 4503599627370496 in *. lia. }
  destruct (fl_round_normal false raw 1 ltac:(lia) ltac:(lia) ltac:(fold k; lia))
    as [Hscale [_ Hfl]].
  fold k in Hscale, Hfl.
  set (E := 2 ^ (52 - k)) in *.
  assert (Hm : PyFloat.rne_div (raw * E) 1 = raw * E).
  { rewrite <- (Z.mul_1_r (raw * E)) at 1. apply rne_div_exact. lia. }
  rewrite Hm in Hfl.
  change (2 ^ 52) with 4503599627370496 in Hscale.
  change (2 ^ 53) with 9007199254740992 in Hscale.
  replace (raw * E =? 2 ^ 53) with false in Hfl
    by (symmetry; apply Z.eqb_neq; change (2 ^ 53) with 9007199254740992; lia).
  exists (Z.to_pos (raw * E)), (k - 52). split; [ exact Hfl | ]. split; [ lia | ].
  rewrite Z2Pos.id by lia. replace (- (k - 52)) with (52 - k) by lia. fold E. ring.
Qed.

(** [float] reads a run of digits as the float nearest to the integer. *)
Lemma float_of_str_integer (i : Z) (ip : list Z) :
  Forall (fun d => 0 <= d <= 9) (i :: ip) ->
  let text := PyStr.string_of_digits (i :: ip) in
  PyStr.remove_char "," text = text
  /\ PyFloat.float_of_str text
     = Some (PyFloat.fl_round false (PyStr.digits_value (i :: ip)) 1).
Proof.
  intros Hip text.
  pose proof (string_of_digits_all_digits _ Hip) as Hdig. fold text in Hdig.
  assert (Hchar : forall c, PyStr.is_digit c = true ->
                            negb (Ascii.eqb c ",") = true
                            /\ negb (PyStr.is_space c) = true).
  { intros c. each_char c; cbv; intros H; try discriminate H; split; reflexivity. }
  split.
  - apply remove_char_absent.
    apply (all_chars_weaken _ _ _ (fun c H => proj1 (Hchar c H)) Hdig).
  - inversion Hip as [ | ? ? Hi Hip' ]; subst.
    pose proof (digit_char_is_digit i Hi) as Hc.
    destruct (digit_first _ Hc) as [Hsp [_ [Hlow [Hni [Hnn _]]]]].
    unfold PyFloat.float_of_str, PyStr.strip.
    rewrite (to_ascii_plain text
               (all_chars_weaken PyStr.is_digit _ _
                  (fun c H => digit_is_plain c ltac:(rewrite H; reflexivity)) Hdig)).
    assert (Etext : text = String (PyStr.digit_char i) (PyStr.string_of_digits ip))
      by reflexivity.
    replace (PyStr.lstrip text) with text
      by (rewrite Etext; cbn [PyStr.lstrip]; rewrite Hsp; reflexivity).
    rewrite (rstrip_no_space text
               (all_chars_weaken _ _ _ (fun c H => proj2 (Hchar c H)) Hdig)).
    rewrite Etext at 1. rewrite (take_sign_digit _ _ Hc). rewrite <- Etext.
    replace (String.eqb (PyStr.lower text) "inf") with false
      by (rewrite Etext; cbn [PyStr.lower String.eqb]; rewrite Hlow, Hni; reflexivity).
    replace (String.eqb (PyStr.lower text) "infinity") with false
      by (rewrite Etext; cbn [PyStr.lower String.eqb]; rewrite Hlow, Hni; reflexivity).
    replace (String.eqb (PyStr.lower text) "nan") with false
      by (rewrite Etext; cbn [PyStr.lower String.eqb]; rewrite Hlow, Hnn; reflexivity).
    cbn [orb]. unfold PyFloat.number.
    replace text with (PyStr.string_of_digits (i :: ip) ++ "")
      by (unfold text; clear; induction (PyStr.string_of_digits (i :: ip));
          cbn; congruence).
    rewrite (digitpart_digits i ip "" Hip) by (left; reflexivity).
    rewrite app_nil_r. unfold PyFloat.float_of_decimal. cbn [List.length Z.of_nat Z.opp Z.sub Z.max].
    change (10 ^ 0) with 1. rewrite Z.mul_1_r. reflexivity.
Qed.

(** X17. For a token without decimals and an allowance below [2^52], the
    printed amount passed back as [--expected] gives the raw allowance
    exactly, so the verdict is MATCH. *)
Theorem human_amount_round_trip_units (raw : Z) :
  0 <= raw < 2 ^ 52 ->
  exists human,
    App.human_amount raw 0 = inr human
    /\ App.expected_to_raw human 0 = inr raw.
Proof.
  intros Hraw. exists (PyStr.str_of_int raw). split; [ reflexivity | ].
  unfold PyStr.str_of_int.
  replace (raw <? 0) with false by (symmetry; apply Z.ltb_ge; lia).
  pose proof (digits_of_range raw ltac:(lia)) as Hr.
  pose proof (digits_of_value raw ltac:(lia)) as Hv.
  pose proof (digits_of_nonempty raw) as Hne.
  destruct (PyStr.digits_of raw) as [ | i ip ]; [ cbn in Hne; lia | ].
  destruct (float_of_str_integer i ip Hr) as [Hc Hf].
  unfold App.expected_to_raw. rewrite Hc, Hf, Hv.
  change (PyFloat.float_of_int (10 ^ 0))
    with (@inr PyFloat.num_error _ (S754_finite false (2 ^ 52) (-52))).
  destruct (Z.eq_dec raw 0) as [-> | Hnz]; [ reflexivity | ].
  destruct (integer_float raw ltac:(lia)) as [mx [ex [Ex [Hex Hx]]]].
  rewrite Ex.
  rewrite (product_round_exact raw 1 mx (2 ^ 52) ex (-52) ltac:(lia) ltac:(lia)
             Hex Hx ltac:(reflexivity)).
  reflexivity.
Qed.

(** ** The syntax [float] reads *)

Section FloatSyntax.

Import FloatText.












End FloatSyntax.

(** ** The round trip beyond 53 bits *)


(** ** The [--expected] text as a float *)



Section ExpectedFloat.

Import App Shown.

Variable keccak_nibble : string -> nat -> Z.

Abbreviation main := (App.main keccak_nibble).
Abbreviation valid_inputs := Shown.valid_inputs.


End ExpectedFloat.

(** ** The further properties at sample inputs *)

Section ExtraSamples.

Import App Shown Calls Sample.

Lemma to_checksum_or_die_shape_witness :
  to_checksum_or_die toy_hash mixed_addr
  = inr "0xdac17f958D2EE523a2206206994597C13d831ec7"
  /\ String.length "0xdac17f958D2EE523a2206206994597C13d831ec7" = 42%nat
  /\ PyStr.startswith "0x" "0xdac17f958D2EE523a2206206994597C13d831ec7" = true
  /\ PyStr.lower "0xdac17f958D2EE523a2206206994597C13d831ec7"
     = "0x" ++ PyStr.lower (EthUtils.remove_0x_prefix mixed_addr)
  /\ EthUtils.is_checksum_address toy_hash
       "0xdac17f958D2EE523a2206206994597C13d831ec7" = true
  /\ ("0xdac17f958D2EE523a2206206994597C13d831ec7" = mixed_addr
      <-> EthUtils.is_checksum_address toy_hash mixed_addr = true).
Proof.
  split; [ vm_compute; reflexivity | ].
  exact (to_checksum_or_die_shape toy_hash mixed_addr
           "0xdac17f958D2EE523a2206206994597C13d831ec7"
           ltac:(vm_compute; reflexivity)).
Defined.

Lemma to_checksum_or_die_case_insensitive_witness :
  to_checksum_or_die toy_hash token_addr
  = inr "0xdac17f958D2EE523a2206206994597C13d831ec7"
  /\ to_checksum_or_die toy_hash "0XDAC17F958D2EE523A2206206994597C13D831EC7"
     = inr "0xdac17f958D2EE523a2206206994597C13d831ec7"
  /\ "0xdac17f958D2EE523a2206206994597C13d831ec7"
     = "0xdac17f958D2EE523a2206206994597C13d831ec7".
Proof.
  split; [ vm_compute; reflexivity | ]. split; [ vm_compute; reflexivity | ].
  exact (to_checksum_or_die_case_insensitive toy_hash token_addr
           "0XDAC17F958D2EE523A2206206994597C13D831EC7"
           "0xdac17f958D2EE523a2206206994597C13d831ec7"
           "0xdac17f958D2EE523a2206206994597C13d831ec7"
           ltac:(vm_compute; reflexivity) ltac:(vm_compute; reflexivity)
           ltac:(vm_compute; reflexivity)).
Defined.

Lemma first_invalid_address_reported_witness :
  exists x,
    find (fun x => negb (EthUtils.is_address x))
      [token_addr; "0x123"; "not an address"] = Some x
    /\ run (world_of true (AllowanceOk 5))
           (main toy_hash
              {| rpc := "https://rpc.example"; token := token_addr;
                 owner := "0x123"; spender := "not an address";
                 block := "latest"; expected := None; timeout := 30;
                 json := false |})
       = ([EClock; EPrint (LAddressError (InvalidEthereumAddress x))], Exit 1).
Proof.
  exact (first_invalid_address_reported toy_hash (world_of true (AllowanceOk 5))
           {| rpc := "https://rpc.example"; token := token_addr;
              owner := "0x123"; spender := "not an address";
              block := "latest"; expected := None; timeout := 30;
              json := false |}
           ltac:(vm_compute; reflexivity) ltac:(vm_compute; reflexivity)).
Defined.

Lemma connection_failure_run_witness :
  run (world_of false (AllowanceOk 5))
      (main toy_hash (args_of "https://rpc.example" None true))
  = ([EClock; EIsConnected "https://rpc.example" 30; EPrint LConnectionFailed],
     Exit 1).
Proof.
  exact (connection_failure_run toy_hash (world_of false (AllowanceOk 5))
           (args_of "https://rpc.example" None true)
           ltac:(vm_compute; reflexivity) ltac:(vm_compute; reflexivity)).
Defined.

Lemma json_document_only_at_end_witness :
  allowance_in_range (world_of true (AllowanceOk 5))
  /\ exists before out,
       printed (fst (run (world_of true (AllowanceOk 5))
                         (main toy_hash (args_of "https://rpc.example" None true))))
       = (before ++ [LJson out])%list
       /\ filter is_json before = [].
Proof.
  split; [ vm_compute; reflexivity | ].
  pose proof (json_document_only_at_end toy_hash (world_of true (AllowanceOk 5))
                (args_of "https://rpc.example" None true)
                ltac:(vm_compute; reflexivity)) as H.
  cbv zeta in H.
  replace (json (args_of "https://rpc.example" None true)
           && valid_inputs (args_of "https://rpc.example" None true)
           && connected (world_of true (AllowanceOk 5))
           && match allowance (world_of true (AllowanceOk 5)) with
              | AllowanceOk _ => true
              | _ => false
              end) with true in H by (vm_compute; reflexivity).
  exact H.
Defined.

Lemma outcome_ignores_cosmetics_witness :
  snd (run (world_of true (AllowanceOk 5))
           (main toy_hash (args_of "https://rpc.example" (Some "0.5") true)))
  = snd (run {| clock := fun _ => S754_zero false;
                connected := true;
                name_reply := None;
                symbol_reply := Some "USDT";
                decimals_reply := Some 18%N;
                chain_id := fun _ => None;
                allowance := AllowanceOk 5 |}
             (main toy_hash (args_of "https://rpc.example" (Some "0.5") true))).
Proof.
  exact (outcome_ignores_cosmetics toy_hash (world_of true (AllowanceOk 5))
           {| clock := fun _ => S754_zero false;
              connected := true;
              name_reply := None;
              symbol_reply := Some "USDT";
              decimals_reply := Some 18%N;
              chain_id := fun _ => None;
              allowance := AllowanceOk 5 |}
           (args_of "https://rpc.example" (Some "0.5") true)
           eq_refl eq_refl eq_refl).
Defined.

Lemma exit_status_matches_output_witness :
  allowance_in_range (world_of true (AllowanceOk 100000000000000000000))
  /\ (snd (run (world_of true (AllowanceOk 100000000000000000000))
               (main toy_hash (args_of "https://rpc.example" (Some "100.5") false)))
      = Exit 2
      <-> In (LVerdict false)
            (printed (fst (run (world_of true (AllowanceOk 100000000000000000000))
                               (main toy_hash
                                  (args_of "https://rpc.example" (Some "100.5") false)))))
          \/ exists msg,
               In (LAllowanceError msg)
                 (printed (fst (run (world_of true (AllowanceOk 100000000000000000000))
                                    (main toy_hash
                                       (args_of "https://rpc.example" (Some "100.5")
                                          false)))))).
Proof.
  split; [ vm_compute; reflexivity | ].
  exact (proj1 (proj2 (exit_status_matches_output toy_hash
                         (world_of true (AllowanceOk 100000000000000000000))
                         (args_of "https://rpc.example" (Some "100.5") false)
                         ltac:(vm_compute; reflexivity)))).
Defined.

Lemma human_amount_exact_witness :
  0 <= 1500000 < 2 ^ 52
  /\ 1 <= 6 <= 18
  /\ human_amount 1500000 6 = inr (PyFloat.fixed_point 1500000 (Z.to_nat 6)).
Proof.
  split; [ vm_compute; intuition discriminate | ].
  split; [ vm_compute; intuition discriminate | ].
  exact (human_amount_exact 1500000 6
           ltac:(vm_compute; intuition discriminate)
           ltac:(vm_compute; intuition discriminate)).
Defined.

Lemma human_amount_format_witness :
  0 <= 2 ^ 256 - 1 < 2 ^ 256
  /\ 1 <= 18
  /\ exists ip fp,
       human_amount (2 ^ 256 - 1) 18 = inr (ip ++ "." ++ fp)
       /\ (1 <= String.length ip)%nat
       /\ String.length fp = Z.to_nat (Z.min 18 18)
       /\ PyStr.all_chars PyStr.is_digit ip = true
       /\ PyStr.all_chars PyStr.is_digit fp = true.
Proof.
  split; [ vm_compute; intuition discriminate | ].
  split; [ vm_compute; intuition discriminate | ].
  exact (human_amount_format (2 ^ 256 - 1) 18
           ltac:(vm_compute; intuition discriminate)
           ltac:(vm_compute; intuition discriminate)).
Defined.

Lemma expected_raw_sign_witness :
  0 <= 2
  /\ PyFloat.float_of_str (PyStr.remove_char "," "-2.5")
     = Some (S754_finite true 5629499534213120 (-51))
  /\ expected_to_raw "-2.5" 2 = inr (-250)
  /\ (if FloatSign.is_negative (S754_finite true 5629499534213120 (-51))
      then -250 <= 0 else 0 <= -250).
Proof.
  split; [ vm_compute; discriminate | ].
  split; [ vm_compute; reflexivity | ].
  split; [ vm_compute; reflexivity | ].
  exact (expected_raw_sign "-2.5" 2 (S754_finite true 5629499534213120 (-51)) (-250)
           ltac:(vm_compute; discriminate)
           ltac:(vm_compute; reflexivity) ltac:(vm_compute; reflexivity)).
Defined.

Lemma expected_infinite_or_nan_witness :
  0 <= 18 <= 255
  /\ PyFloat.float_of_str (PyStr.remove_char "," "-Infinity")
     = Some (S754_infinity true)
  /\ expected_to_raw "-Infinity" 18 = inl (Numeric PyFloat.OverflowInfToInt).
Proof.
  split; [ vm_compute; intuition discriminate | ].
  split; [ vm_compute; reflexivity | ].
  exact (proj2 (expected_infinite_or_nan "-Infinity" 18 (S754_infinity true)
                  ltac:(vm_compute; intuition discriminate)
                  ltac:(vm_compute; reflexivity))
           true eq_refl).
Defined.

Lemma human_amount_round_trip_witness :
  0 <= 4351903768961661 < 2 ^ 52
  /\ 1 <= 8 <= 18
  /\ exists human k,
       human_amount 4351903768961661 8 = inr human
       /\ expected_to_raw human 8 = inr k
       /\ 4351903768961661 - 1 <= k <= 4351903768961661 + 1.
Proof.
  split; [ vm_compute; intuition discriminate | ].
  split; [ vm_compute; intuition discriminate | ].
  exact (human_amount_round_trip 4351903768961661 8
           ltac:(vm_compute; intuition discriminate)
           ltac:(vm_compute; intuition discriminate)).
Defined.

(** The bound of one unit is reached: this amount comes back one higher. *)
Lemma round_trip_off_by_one :
  human_amount 4351903768961661 8 = inr "43519037.68961661"
  /\ expected_to_raw "43519037.68961661" 8 = inr 4351903768961662.
Proof. split; vm_compute; reflexivity. Qed.

Lemma human_amount_round_trip_units_witness :
  0 <= 12345 < 2 ^ 52
  /\ exists human,
       human_amount 12345 0 = inr human /\ expected_to_raw human 0 = inr 12345.
Proof.
  split; [ vm_compute; intuition discriminate | ].
  exact (human_amount_round_trip_units 12345
           ltac:(vm_compute; intuition discriminate)).
Defined.

End ExtraSamples.

(** ** The amended claim at sample inputs *)

Section ExpectedSamples.

Import App Shown Sample.




End ExpectedSamples.
